(** * Load generator of the reranker benchmarking notebooks

    A shallow embedding of [benchmark_predictor] (and of its inner
    [send_request]) as they appear, identically, in both notebooks of the
    repository, followed by the properties the design document states
    about them.

    Conventions of the embedding.
    - Clock readings ([time.time()]) and every quantity derived from them
      are exact rationals ([Q]): what is proved of a latency or of a
      throughput is proved of the quantity the code computes up to the
      rounding of binary64.  The one special float value the code can
      produce, [nan] (from [np.mean] of an empty list), is kept.  Where
      the rounding itself decides a property (the mean of a trial under
      two completion orders), the computation is repeated on binary64
      numbers.
    - The predictor, the clock and the thread scheduler are the
      environment: an [Env] says, for every trial, what the clock reads,
      how each request is answered and in which order the futures
      complete.  That the controlling thread waits for the workers is the
      behaviour of [concurrent.futures], not of the notebooks' code; the
      embedding follows the controlling thread and takes the workers'
      runs from the environment.
    - Python exceptions are an error monad; the calls made on the
      predictor and the lines printed are the monad's log.  An exception
      is told apart by the statement that raised it, not by its Python
      class.
    - The rest of the notebooks (the cell that drives the benchmark, the
      plots, the table, the inference script) follows the harness; the
      scores of the inference script are real numbers, the rounding of
      the code's float32 being left out. *)

From Stdlib Require Import List ZArith QArith Qfield Lia Permutation Bool Arith String Sorted.
From Stdlib Require Import Ascii Reals Floats.
Import ListNotations.

Local Open Scope Z_scope.

(** ** Python values and exceptions *)

(** The payload is "any" Python value; the notebooks build it from
    dictionaries, lists and strings, and nothing prevents [None]. *)
Unset Elimination Schemes.
Inductive PyValue : Type :=
| PyNone
| PyInt (n : Z)
| PyStr (s : string)
| PyList (items : list PyValue)
| PyDict (fields : list (string * PyValue)).
Set Elimination Schemes.

(** The exceptions that can leave [benchmark_predictor], by the statement
    that raises them.  [PredictError] stands for whatever
    [predictor.predict] raised, of any Python class (a [ValueError] or a
    [ZeroDivisionError] of its own included); the other two are the
    exceptions of the harness's own statements. *)
Inductive exn : Type :=
| ValueError          (* ThreadPoolExecutor: max_workers must be greater than 0 *)
| ZeroDivisionError   (* num_requests / total_time with total_time == 0.0 *)
| PredictError (err : nat).  (* whatever predictor.predict raised *)

Inductive result (A : Type) : Type :=
| Ok (a : A)
| Raise (e : exn).
Arguments Ok {A} a.
Arguments Raise {A} e.

(** A float: a finite value, or [nan]. *)
Inductive pyfloat : Type :=
| Fin (q : Q)
| NaN.

Definition feq (a b : pyfloat) : Prop :=
  match a, b with
  | Fin x, Fin y => (x == y)%Q
  | NaN, NaN => True
  | _, _ => False
  end.

Definition fadd (a b : pyfloat) : pyfloat :=
  match a, b with
  | Fin x, Fin y => Fin (x + y)%Q
  | _, _ => NaN
  end.

Definition fsum (l : list pyfloat) : pyfloat := fold_left fadd l (Fin 0%Q).

(** [np.mean]: the sum over the count; [nan] for an empty list (NumPy
    warns and returns [nan], it does not raise). *)
Definition np_mean (l : list pyfloat) : pyfloat :=
  match l with
  | [] => NaN
  | _ :: _ =>
      match fsum l with
      | Fin s => Fin (s / inject_Z (Z.of_nat (List.length l)))%Q
      | NaN => NaN
      end
  end.

(** ** The environment *)

(** How the endpoint answers one call of [predictor.predict]. *)
Inductive reply : Type :=
| Responds
| Fails (err : nat).

(** One request as seen from [send_request]: the clock just before the
    call, the clock just after it, and the answer. *)
Record request_run : Type := {
  t_send : Q;
  t_recv : Q;
  answer : reply
}.

(** One trial: the clock before the pool is created and after it is
    closed, the run of the request submitted [i]-th, and the order in
    which [as_completed] hands the futures back.  The order is given as
    an insertion code (see [as_completed]) so that every list of numbers
    denotes a completion order and every completion order is denoted. *)
Record trial_env : Type := {
  t_begin : Q;
  served : nat -> request_run;
  completion : list nat;
  t_end : Q
}.

(** [env k j] is the [j]-th trial of the [k]-th entry of [steps]. *)
Definition Env : Type := nat -> nat -> trial_env.

(** ** The monad: a log and possibly an exception *)

Inductive event : Type :=
| Predict (level trial req : nat) (data : PyValue) (r : reply)
| Printed (num_requests : Z) (avg_latency avg_throughput : pyfloat).

Definition M (A : Type) : Type := (list event * result A)%type.

Definition ret {A} (a : A) : M A := ([], Ok a).
Definition raise {A} (e : exn) : M A := ([], Raise e).
Definition tell (ev : event) : M unit := ([ev], Ok tt).

Definition bind {A B} (m : M A) (f : A -> M B) : M B :=
  match m with
  | (log, Ok a) => let (log', r) := f a in (log ++ log', r)
  | (log, Raise e) => (log, Raise e)
  end.

Notation "x <- m ;; k" := (bind m (fun x => k))
  (at level 61, m at next level, right associativity).
Notation "' pat <- m ;; k" := (bind m (fun x => match x with pat => k end))
  (at level 61, pat pattern, m at next level, right associativity).

Definition log_of {A} (m : M A) : list event := fst m.
Definition outcome_of {A} (m : M A) : result A := snd m.

Fixpoint mapM {A B} (f : A -> M B) (l : list A) : M (list B) :=
  match l with
  | [] => ret []
  | x :: l' =>
      y <- f x ;;
      ys <- mapM f l' ;;
      ret (y :: ys)
  end.

(** ** concurrent.futures *)

(** A finished future holds what its task returned or raised. *)
Definition Future (A : Type) : Type := result A.

(** [executor.submit(task)]: the task runs in a worker; its effects
    happen, its exception (if any) is stored in the future instead of
    being raised in the submitting thread. *)
Definition submit {A} (task : M A) : M (Future A) :=
  (log_of task, Ok (outcome_of task)).

(** [future.result()]: the stored value, or the stored exception raised
    in the caller. *)
Definition future_result {A} (f : Future A) : M A := ([], f).

Definition insert_at {A} (p : nat) (x : A) (l : list A) : list A :=
  firstn p l ++ x :: skipn p l.

(** [as_completed(futures)]: the same futures in completion order.  The
    future submitted first is placed at position [p] (clamped to the
    length) among the later ones, where [p] is the head of the code. *)
Fixpoint as_completed {A} (code : list nat) (futures : list A) : list A :=
  match futures with
  | [] => []
  | f :: rest =>
      match code with
      | [] => f :: as_completed [] rest
      | p :: code' => insert_at p f (as_completed code' rest)
      end
  end.

(** [with ThreadPoolExecutor(max_workers=n) as executor: body]: the
    constructor rejects a non-positive [n]; leaving the block (normally
    or by exception) waits for the workers, which adds nothing to the log
    here since [submit] already accounts for each task's run. *)
Definition with_ThreadPoolExecutor {A} (max_workers : Z) (body : M A) : M A :=
  if max_workers <=? 0 then raise ValueError else body.

(** ** The harness *)

(** [predictor.predict(data=payload)] for request [req] of trial [trial]
    at level [level]; the three numbers only label the log entry. *)
Definition predict (level trial req : nat) (data : PyValue) (rr : request_run)
  : M unit :=
  _ <- tell (Predict level trial req data (answer rr)) ;;
  match answer rr with
  | Responds => ret tt
  | Fails err => raise (PredictError err)
  end.

Definition send_request (payload : PyValue) (level trial req : nat)
    (rr : request_run) : M Q :=
  let start_time := t_send rr in
  _ <- predict level trial req payload rr ;;
  let latency := (t_recv rr - start_time)%Q in
  ret latency.

(** [num_requests / total_time], an int over a float. *)
Definition py_div (n : Z) (d : Q) : M pyfloat :=
  if Qeq_bool d 0 then raise ZeroDivisionError
  else ret (Fin (inject_Z n / d)%Q).

(** The body of [for _ in range(iterations)], up to the two appends. *)
Definition run_trial (payload : PyValue) (level trial : nat)
    (num_requests : Z) (te : trial_env) : M (pyfloat * pyfloat) :=
  let start_time := t_begin te in
  latencies_batch <-
    with_ThreadPoolExecutor num_requests
      (futures <- mapM (fun i => submit (send_request payload level trial i (served te i)))
                       (seq 0 (Z.to_nat num_requests)) ;;
       mapM future_result (as_completed (completion te) futures)) ;;
  let total_time := (t_end te - start_time)%Q in
  let latency := np_mean (map Fin latencies_batch) in
  throughput <- py_div num_requests total_time ;;
  ret (latency, throughput).

(** [for _ in range(iterations)]: [trials] are the values of the loop
    variable still to come. *)
Fixpoint trials_loop (payload : PyValue) (level : nat) (num_requests : Z)
    (tenv : nat -> trial_env) (trials : list nat)
    (iter_latencies iter_throughputs : list pyfloat)
  : M (list pyfloat * list pyfloat) :=
  match trials with
  | [] => ret (iter_latencies, iter_throughputs)
  | j :: trials' =>
      '(latency, throughput) <- run_trial payload level j num_requests (tenv j) ;;
      trials_loop payload level num_requests tenv trials'
                  (iter_latencies ++ [latency]) (iter_throughputs ++ [throughput])
  end.

(** [range(n)] for a Python int: empty when [n <= 0]. *)
Definition py_range (n : Z) : list nat := seq 0 (Z.to_nat n).

(** The body of [for num_requests in steps], up to the three appends. *)
Definition run_level (payload : PyValue) (iterations : Z) (env : Env)
    (level : nat) (num_requests : Z) : M (pyfloat * pyfloat) :=
  '(iter_latencies, iter_throughputs) <-
    trials_loop payload level num_requests (env level) (py_range iterations) [] [] ;;
  let avg_latency := np_mean iter_latencies in
  let avg_throughput := np_mean iter_throughputs in
  ret (avg_latency, avg_throughput).

Definition Report : Type := (list Z * list pyfloat * list pyfloat)%type.

(** [for num_requests in steps]: [level] is the position of the head of
    [steps] in the list the caller passed. *)
Fixpoint levels_loop (payload : PyValue) (iterations : Z) (env : Env)
    (level : nat) (steps : list Z)
    (request_counts : list Z) (latencies throughputs : list pyfloat)
  : M Report :=
  match steps with
  | [] => ret (request_counts, latencies, throughputs)
  | num_requests :: steps' =>
      '(avg_latency, avg_throughput) <-
        run_level payload iterations env level num_requests ;;
      let latencies := latencies ++ [avg_latency] in
      let throughputs := throughputs ++ [avg_throughput] in
      let request_counts := request_counts ++ [num_requests] in
      _ <- tell (Printed num_requests avg_latency avg_throughput) ;;
      levels_loop payload iterations env (S level) steps'
                  request_counts latencies throughputs
  end.

Definition benchmark_predictor (env : Env) (payload : PyValue)
    (steps : list Z) (iterations : Z) : M Report :=
  levels_loop payload iterations env 0%nat steps [] [] [].

Definition default_iterations : Z := 5.

(** ** Vocabulary of the properties *)

Definition Qsum (l : list Q) : Q := fold_right Qplus 0%Q l.

(** The arithmetic mean as the design words it: the sum of the values
    over their number.  It is stated independently of [np_mean], against
    which the code is compared. *)
Definition arith_mean (l : list Q) : Q :=
  (Qsum l / inject_Z (Z.of_nat (List.length l)))%Q.

(** The duration of request [i] as [send_request] measures it. *)
Definition request_latency (te : trial_env) (i : nat) : Q :=
  (t_recv (served te i) - t_send (served te i))%Q.

(** The wall-clock time of a trial: [total_time]. *)
Definition trial_elapsed (te : trial_env) : Q := (t_end te - t_begin te)%Q.

(** The future of request [i]: what [send_request] returned or raised. *)
Definition request_future (te : trial_env) (i : nat) : Future Q :=
  match answer (served te i) with
  | Responds => Ok (request_latency te i)
  | Fails err => Raise (PredictError err)
  end.

(** The log entries of the [c] requests of one trial, in submission order. *)
Definition trial_calls (payload : PyValue) (level trial : nat) (c : Z)
    (te : trial_env) : list event :=
  map (fun i => Predict level trial i payload (answer (served te i)))
      (seq 0 (Z.to_nat c)).

(** What a list comprehension over [future.result()] yields: all the
    values, or the exception of the first future that holds one. *)
Fixpoint collect {A} (fs : list (Future A)) : result (list A) :=
  match fs with
  | [] => Ok []
  | Ok a :: fs' =>
      match collect fs' with
      | Ok l => Ok (a :: l)
      | Raise e => Raise e
      end
  | Raise e :: _ => Raise e
  end.

(** The futures of a trial as [as_completed] hands them back. *)
Definition futures_in_completion_order (c : Z) (te : trial_env) : list (Future Q) :=
  as_completed (completion te) (map (request_future te) (seq 0 (Z.to_nat c))).

(** What the trial does once [latencies_batch] is complete. *)
Definition finish_trial (c : Z) (te : trial_env) (latencies_batch : list Q)
  : result (pyfloat * pyfloat) :=
  if Qeq_bool (trial_elapsed te) 0 then Raise ZeroDivisionError
  else Ok (np_mean (map Fin latencies_batch),
           Fin (inject_Z c / trial_elapsed te)%Q).

(** The trial once its pool exists, in closed form: what [run_trial]
    does for a positive [c].  (For [c <= 0] the pool's constructor raises
    before anything is submitted.) *)
Definition trial_outcome (c : Z) (te : trial_env) : result (pyfloat * pyfloat) :=
  match collect (futures_in_completion_order c te) with
  | Raise e => Raise e
  | Ok latencies_batch => finish_trial c te latencies_batch
  end.

(** The exception of the first future, in the given order, that holds one. *)
Fixpoint first_failure {A} (fs : list (Future A)) : option exn :=
  match fs with
  | [] => None
  | Ok _ :: fs' => first_failure fs'
  | Raise e :: _ => Some e
  end.

(** A log in which every call on the predictor was answered. *)
Definition clean (log : list event) : Prop :=
  forall k j i d err, ~ In (Predict k j i d (Fails err)) log.

(** The value a future holds, [default] if it holds an exception. *)
Definition value_of {A} (default : A) (f : Future A) : A :=
  match f with
  | Ok a => a
  | Raise _ => default
  end.

(** The log entries of the trials [js] of one level, in order. *)
Definition level_calls (payload : PyValue) (level : nat) (c : Z)
    (tenv : nat -> trial_env) (js : list nat) : list event :=
  flat_map (fun j => trial_calls payload level j c (tenv j)) js.

(** [levels_run payload t env k steps rows log]: the levels [steps],
    numbered from [k], all complete; [rows] are their results and [log]
    is what they did. *)
Inductive levels_run (payload : PyValue) (iterations : Z) (env : Env)
  : nat -> list Z -> list (pyfloat * pyfloat) -> list event -> Prop :=
| levels_run_nil k : levels_run payload iterations env k [] [] []
| levels_run_cons k c steps row rows lg log :
    run_level payload iterations env k c = (lg, Ok row) ->
    levels_run payload iterations env (S k) steps rows log ->
    levels_run payload iterations env k (c :: steps) (row :: rows)
               (lg ++ Printed c (fst row) (snd row) :: log).

(** The calls on the predictor made for the level at position [k]. *)
Definition calls_of_level (k : nat) (log : list event) : list event :=
  filter (fun ev => match ev with
                    | Predict k' _ _ _ _ => Nat.eqb k' k
                    | Printed _ _ _ => false
                    end) log.


(** The requests a log shows calls for: (level, trial, request). *)
Definition labels (log : list event) : list (nat * nat * nat) :=
  flat_map (fun ev => match ev with
                      | Predict k j i _ _ => [(k, j, i)]
                      | Printed _ _ _ => []
                      end) log.

(** ** Example environments *)

(** A stub endpoint: every request takes [d], every trial lasts [d], and
    the futures complete in the reverse of the order of submission. *)
Definition stub_env (d : Q) : Env := fun _ _ =>
  {| t_begin := 100;
     served := fun _ => {| t_send := 100; t_recv := 100 + d; answer := Responds |};
     completion := [7; 6; 5; 4; 3; 2; 1]%nat;
     t_end := 100 + d |}.

(** An endpoint that fails requests 1 and 2 of every trial of the second
    level; there request 2 completes first. *)
Definition failing_env : Env := fun k _ =>
  {| t_begin := 100;
     served := fun i =>
       {| t_send := 100; t_recv := 101;
          answer := if Nat.eqb k 1 && Nat.eqb i 1 then Fails 503
                    else if Nat.eqb k 1 && Nat.eqb i 2 then Fails 429
                    else Responds |};
     completion := [3; 1; 0]%nat;
     t_end := 101 |}.

Definition example_payload : PyValue :=
  PyDict [("query"%string, PyStr "what is panda?");
          ("texts"%string, PyList [PyStr "A panda is a type of bear."])].

(** A trial of three requests taking 1, 2 and 3 seconds; the second
    completes first. *)
Definition uneven_trial : trial_env :=
  {| t_begin := 10;
     served := fun i =>
       {| t_send := 10; t_recv := 10 + inject_Z (Z.of_nat (S i)); answer := Responds |};
     completion := [1; 0]%nat;
     t_end := 14 |}.

Definition stub_run : M Report :=
  benchmark_predictor (stub_env (1 # 10)) example_payload [1; 2; 4] 2.

Definition failing_run : M Report :=
  benchmark_predictor failing_env example_payload [1; 4; 2] 2.

(** The claim that a configuration is rejected before any call. *)
Definition rejected_before_any_call (env : Env) (payload : PyValue)
    (steps : list Z) (iterations : Z) : Prop :=
  exists e, benchmark_predictor env payload steps iterations = ([], Raise e).

(** ** More vocabulary for the harness *)

Definition is_predict (ev : event) : bool :=
  match ev with
  | Predict _ _ _ _ _ => true
  | Printed _ _ _ => false
  end.

(** All the calls on the predictor a log shows. *)
Definition predict_calls (log : list event) : list event := filter is_predict log.

(** The lines a log shows printed: (num_requests, avg_latency, avg_throughput). *)
Definition printed_lines (log : list event) : list (Z * pyfloat * pyfloat) :=
  flat_map (fun ev => match ev with
                      | Predict _ _ _ _ _ => []
                      | Printed c a b => [(c, a, b)]
                      end) log.

Definition Zsum (l : list Z) : Z := fold_right Z.add 0 l.

(** A clock that does not run backwards over a trial of [c] requests:
    every request is sent after the trial began, answered after it was
    sent, and the trial ends after every answer. *)
Definition clock_is_sane (c : Z) (te : trial_env) : Prop :=
  forall i, (i < Z.to_nat c)%nat ->
    (t_begin te <= t_send (served te i))%Q /\
    (t_send (served te i) <= t_recv (served te i))%Q /\
    (t_recv (served te i) <= t_end te)%Q.

(** The environment as seen by a run that starts [n] levels later. *)
Definition shift_env (n : nat) (env : Env) : Env := fun k j => env (n + k)%nat j.

(** The report of a run with [report1] put in front of it. *)
Definition prepend_report (report1 : Report) (r : result Report) : result Report :=
  match report1, r with
  | (rc1, l1, t1), Ok (rc2, l2, t2) => Ok (rc1 ++ rc2, l1 ++ l2, t1 ++ t2)
  | _, Raise e => Raise e
  end.

(** ** The benchmark cell: levels and table *)

(** A Python number: an int or a float. *)
Inductive PyNum : Type :=
| NInt (n : Z)
| NFloat (x : pyfloat).

(** [2**x] for an int [x]: an int when [x >= 0], the float [1 / 2**(-x)]
    otherwise. *)
Definition pow2 (x : Z) : PyNum :=
  if x <? 0 then NFloat (Fin (/ inject_Z (2 ^ (- x)))%Q) else NInt (2 ^ x).

(** [len(range(start, stop, step))] for [step <> 0]. *)
Definition range_len (start stop step : Z) : Z :=
  if 0 <? step then
    if start <? stop then (stop - start - 1) / step + 1 else 0
  else
    if stop <? start then (start - stop - 1) / (- step) + 1 else 0.

(** [range(start, stop, step)]; a zero step is a [ValueError]. *)
Definition py_range3 (start stop step : Z) : result (list Z) :=
  if step =? 0 then Raise ValueError
  else Ok (map (fun i => start + Z.of_nat i * step)
               (seq 0 (Z.to_nat (range_len start stop step)))).

(** [steps = list(map(lambda x: 2**x, range(min_requests, max_requests, step_size)))] *)
Definition benchmark_steps (min_requests max_requests step_size : Z)
  : result (list PyNum) :=
  match py_range3 min_requests max_requests step_size with
  | Ok xs => Ok (map pow2 xs)
  | Raise e => Raise e
  end.

(** [l * n] for a list [l] and an int [n]: empty when [n <= 0]. *)
Definition list_times {A} (l : list A) (n : Z) : list A :=
  List.concat (repeat l (Z.to_nat n)).

(** [d[key]] read without raising: [None] when the key is missing.  A
    dict is the list of its items in insertion order. *)
Fixpoint dict_get (key : string) (d : list (string * PyValue)) : option PyValue :=
  match d with
  | [] => None
  | (k, v) :: d' => if String.eqb k key then Some v else dict_get key d'
  end.

(** One row of [df_benchmark]. *)
Record bench_row : Type := {
  row_client_batch_size : Z;
  row_concurrent_request_counts : Z;
  row_latencies : pyfloat;
  row_throughputs : pyfloat
}.

Fixpoint zip_rows (c1 c2 : list Z) (c3 c4 : list pyfloat) : list bench_row :=
  match c1, c2, c3, c4 with
  | a :: c1', b :: c2', c :: c3', d :: c4' =>
      {| row_client_batch_size := a; row_concurrent_request_counts := b;
         row_latencies := c; row_throughputs := d |} :: zip_rows c1' c2' c3' c4'
  | _, _, _, _ => []
  end.

(** [pd.DataFrame] of a dict of four lists: the lists must have one
    length, else [ValueError]. *)
Definition DataFrame (c1 c2 : list Z) (c3 c4 : list pyfloat) : result (list bench_row) :=
  if Nat.eqb (List.length c1) (List.length c2)
     && Nat.eqb (List.length c2) (List.length c3)
     && Nat.eqb (List.length c3) (List.length c4)
  then Ok (zip_rows c1 c2 c3 c4)
  else Raise ValueError.

(** [new_data], then the empty [df_benchmark] with [new_data] appended
    ([ignore_index=True]: the rows are renumbered from 0). *)
Definition benchmark_table (client_batch_size : Z) (request_counts : list Z)
    (latencies throughputs : list pyfloat) : result (list bench_row) :=
  match DataFrame (list_times [client_batch_size] (Z.of_nat (List.length request_counts)))
                  request_counts latencies throughputs with
  | Ok rows => Ok ([] ++ rows)
  | Raise e => Raise e
  end.

(** ** The plots *)

Inductive axes : Type := Ax1 | Ax2 | Pyplot.

(** The calls made on matplotlib, oldest first. *)
Inductive plot_event : Type :=
| Subplots
| Figure
| SetXLabel (ax : axes) (label : string)
| SetYLabel (ax : axes) (label : string)
| PlotXY (ax : axes) (xs ys : list PyNum)
| TickParams (ax : axes)
| Twinx
| TightLayout
| Title (label : string)
| Grid
| Annotate (text : Z) (x y : pyfloat)
| ShowFigure.

Inductive plot_exn : Type :=
| PlotValueError   (* ValueError: x and y must have same first dimension *)
| PlotIndexError.  (* IndexError: list index out of range *)

(** What a plotting function did, and the exception it raised if any. *)
Definition Plotted : Type := (list plot_event * option plot_exn)%type.

Definition plot_metrics (request_counts : list Z)
    (latencies throughputs : list pyfloat) : Plotted :=
  let first := [Subplots;
                SetXLabel Ax1 "Number of Concurrent Requests";
                SetYLabel Ax1 "Average Latency (s)"] in
  if negb (Nat.eqb (List.length request_counts) (List.length latencies))
  then (first, Some PlotValueError)
  else
    let second := first ++
                  [PlotXY Ax1 (map NInt request_counts) (map NFloat latencies);
                   TickParams Ax1;
                   Twinx;
                   SetYLabel Ax2 "Throughput (requests/s)"] in
    if negb (Nat.eqb (List.length request_counts) (List.length throughputs))
    then (second, Some PlotValueError)
    else (second ++
          [PlotXY Ax2 (map NInt request_counts) (map NFloat throughputs);
           TickParams Ax2;
           TightLayout;
           Title "Latency and Throughput Benchmarking";
           ShowFigure], None).

(** [for i, request_count in enumerate(request_counts): plt.annotate(...)],
    from index [i] on. *)
Fixpoint annotate_loop (i : nat) (request_counts : list Z)
    (latencies throughputs : list pyfloat) : Plotted :=
  match request_counts with
  | [] => ([], None)
  | request_count :: rest =>
      match nth_error throughputs i with
      | None => ([], Some PlotIndexError)
      | Some x =>
          match nth_error latencies i with
          | None => ([], Some PlotIndexError)
          | Some y =>
              let (evs, r) := annotate_loop (S i) rest latencies throughputs in
              (Annotate request_count x y :: evs, r)
          end
      end
  end.

Definition plot_latency_vs_throughput (latencies throughputs : list pyfloat)
    (request_counts : list Z) : Plotted :=
  if negb (Nat.eqb (List.length throughputs) (List.length latencies))
  then ([Figure], Some PlotValueError)
  else
    let first := [Figure;
                  PlotXY Pyplot (map NFloat throughputs) (map NFloat latencies);
                  SetXLabel Pyplot "Throughput (requests/s)";
                  SetYLabel Pyplot "Average Latency (s)";
                  Title "Latency vs Throughput";
                  Grid] in
    match annotate_loop 0 request_counts latencies throughputs with
    | (evs, None) => (first ++ evs ++ [ShowFigure], None)
    | (evs, Some e) => (first ++ evs, Some e)
    end.

(** The annotations a plot log shows: (text, x, y). *)
Definition annotations (log : list plot_event) : list (Z * pyfloat * pyfloat) :=
  flat_map (fun ev => match ev with
                      | Annotate text x y => [(text, x, y)]
                      | _ => []
                      end) log.

(** ** The inference script of the Inferentia notebook *)

(** [d] without [key]. *)
Definition dict_remove (key : string) (d : list (string * PyValue))
  : list (string * PyValue) :=
  filter (fun kv => negb (String.eqb (fst kv) key)) d.

(** [d.pop(key, default)]: the value and the dict as it is afterwards. *)
Definition dict_pop (key : string) (d : list (string * PyValue)) (default : PyValue)
  : PyValue * list (string * PyValue) :=
  match dict_get key d with
  | Some v => (v, dict_remove key d)
  | None => (default, d)
  end.

(** [torch.sigmoid], over the reals. *)
Definition sigmoid (x : R) : R := (/ (1 + exp (- x)))%R.

(** What [model_fn] returns, as far as [predict_fn] uses it: the
    tokenizer (which may raise), the model's logits for an encoded batch,
    and [model.config.neuron["static_sequence_length"]]. *)
Record pipeline (Encoded : Type) : Type := {
  tokenizer : PyValue -> Z -> option Encoded;
  logits : Encoded -> list R;
  static_sequence_length : Z
}.
Arguments tokenizer {Encoded} p.
Arguments logits {Encoded} p.
Arguments static_sequence_length {Encoded} p.

(** What [predict_fn] leaves behind: the dict [data] as it is after the
    call, the value it printed, and the scores ([None] when the tokenizer
    raised). *)
Record prediction : Type := {
  data_after : list (string * PyValue);
  printed : PyValue;
  scores : option (list R)
}.

Definition predict_fn {Encoded} (data : list (string * PyValue))
    (p : pipeline Encoded) : prediction :=
  let (inputs, data') := dict_pop "inputs" data (PyDict data) in
  {| data_after := data';
     printed := inputs;
     scores :=
       match tokenizer p inputs (static_sequence_length p) with
       | Some encoded_input => Some (map sigmoid (logits p encoded_input))
       | None => None
       end |}.

(** ** Names *)

(** [s.replace(old, new)] for one-character [old] and [new]. *)
Fixpoint replace_char (old new : Ascii.ascii) (s : string) : string :=
  match s with
  | EmptyString => EmptyString
  | String ch s' =>
      String (if Ascii.eqb ch old then new else ch) (replace_char old new s')
  end.

(** [config_hf["HF_MODEL_ID"].replace("/", "-")], the base of the model name. *)
Definition model_name_base (hf_model_id : string) : string :=
  replace_char "/"%char "-"%char hf_model_id.

Fixpoint occurs (ch : Ascii.ascii) (s : string) : bool :=
  match s with
  | EmptyString => false
  | String ch' s' => Ascii.eqb ch' ch || occurs ch s'
  end.

(** ** More examples *)

(** A run during which the clock stands still. *)
Definition stalled_run : M Report :=
  benchmark_predictor (stub_env 0) example_payload [2] 1.

(** A run that meets the level 0 after a first level. *)
Definition rejected_run : M Report :=
  benchmark_predictor (stub_env (1 # 10)) example_payload [1; 0; 4] 1.

(** A pipeline whose model answers every batch with the logits 0 and 1. *)
Definition example_pipeline : pipeline nat :=
  {| tokenizer := fun _ _ => Some 0%nat;
     logits := fun _ => [0%R; 1%R];
     static_sequence_length := 2048 |}.

Definition example_data : list (string * PyValue) :=
  [("inputs"%string, PyList [PyList [PyStr "what is panda?"; PyStr "hi"]]);
   ("parameters"%string, PyNone)].

(** ** The mean latency of a trial in binary64

    The part of a trial that produces its mean latency, repeated on the
    numbers the machine has, for a trial whose requests are all
    answered. *)





(** ** The monad *)

Lemma bind_ok {A B} (m : M A) (f : A -> M B) log b :
  bind m f = (log, Ok b) ->
  exists l1 a l2, m = (l1, Ok a) /\ f a = (l2, Ok b) /\ log = l1 ++ l2.
Proof.
  destruct m as [l1 [a|e]]; simpl; [|discriminate].
  destruct (f a) as [l2 r] eqn:E. intros H; inversion H; subst.
  exists l1, a, l2. auto.
Qed.

Lemma bind_raise {A B} (m : M A) (f : A -> M B) log e :
  bind m f = (log, Raise e) ->
  m = (log, Raise e) \/
  exists l1 a l2, m = (l1, Ok a) /\ f a = (l2, Raise e) /\ log = l1 ++ l2.
Proof.
  destruct m as [l1 [a|e']]; simpl.
  - destruct (f a) as [l2 r] eqn:E. intros H; inversion H; subst.
    right. exists l1, a, l2. auto.
  - intros H; inversion H; subst. now left.
Qed.

(** ** Submitting and collecting *)

Lemma mapM_submit_eq {A B} (task : A -> M B) (l : list A) :
  mapM (fun x => submit (task x)) l
  = (flat_map (fun x => log_of (task x)) l, Ok (map (fun x => outcome_of (task x)) l)).
Proof.
  induction l as [|x l IH]; simpl; [reflexivity|].
  rewrite IH. simpl. now rewrite app_nil_r.
Qed.

Lemma mapM_future_result_eq {A} (fs : list (Future A)) :
  mapM future_result fs = ([], collect fs).
Proof.
  induction fs as [|[a|e] fs IH]; simpl; try reflexivity.
  rewrite IH. simpl. now destruct (collect fs).
Qed.

Lemma send_request_log payload k j i rr :
  log_of (send_request payload k j i rr) = [Predict k j i payload (answer rr)].
Proof. unfold send_request, predict. simpl. now destruct (answer rr). Qed.

Lemma send_request_outcome payload k j i te :
  outcome_of (send_request payload k j i (served te i)) = request_future te i.
Proof.
  unfold send_request, predict, request_future, request_latency. simpl.
  now destruct (answer (served te i)).
Qed.

Lemma run_trial_eq payload k j c te :
  run_trial payload k j c te =
  if c <=? 0 then ([], Raise ValueError)
  else (trial_calls payload k j c te, trial_outcome c te).
Proof.
  unfold run_trial, with_ThreadPoolExecutor.
  destruct (c <=? 0); [reflexivity|].
  rewrite mapM_submit_eq. cbn [bind].
  rewrite mapM_future_result_eq.
  unfold trial_outcome, finish_trial, futures_in_completion_order, trial_calls.
  replace (map (fun x => outcome_of (send_request payload k j x (served te x))) (seq 0 (Z.to_nat c)))
    with (map (request_future te) (seq 0 (Z.to_nat c)))
    by (apply map_ext; intros; now rewrite send_request_outcome).
  replace (flat_map (fun x => log_of (send_request payload k j x (served te x))) (seq 0 (Z.to_nat c)))
    with (map (fun i => Predict k j i payload (answer (served te i))) (seq 0 (Z.to_nat c))).
  2:{ rewrite flat_map_concat_map. induction (seq 0 (Z.to_nat c)); simpl; [reflexivity|].
      rewrite send_request_log. simpl. now f_equal. }
  destruct (collect _) as [batch|e]; simpl.
  - rewrite app_nil_r. unfold py_div, trial_elapsed.
    destruct (Qeq_bool _ 0); simpl; now rewrite ?app_nil_r.
  - now rewrite app_nil_r.
Qed.
(** ** Sums and means *)

Lemma fold_left_Qplus_Qsum (l : list Q) (a : Q) :
  (fold_left Qplus l a == a + Qsum l)%Q.
Proof.
  revert a. induction l as [|x l IH]; intros a; simpl.
  - ring.
  - rewrite IH. ring.
Qed.

Lemma fold_left_fadd_Fin (l : list Q) (a : Q) :
  fold_left fadd (map Fin l) (Fin a) = Fin (fold_left Qplus l a).
Proof.
  revert a. induction l as [|x l IH]; intros a; simpl; [reflexivity|apply IH].
Qed.

Lemma Qsum_app (l1 l2 : list Q) : (Qsum (l1 ++ l2) == Qsum l1 + Qsum l2)%Q.
Proof.
  induction l1 as [|x l1 IH]; simpl.
  - ring.
  - rewrite IH. ring.
Qed.

Lemma Qsum_perm (l l' : list Q) : Permutation l l' -> (Qsum l == Qsum l')%Q.
Proof.
  induction 1; simpl.
  - reflexivity.
  - now rewrite IHPermutation.
  - ring.
  - now rewrite IHPermutation1.
Qed.

Lemma Qsum_compat (l l' : list Q) : Forall2 Qeq l l' -> (Qsum l == Qsum l')%Q.
Proof.
  induction 1 as [|x y l l' Hxy _ IH]; simpl.
  - reflexivity.
  - now rewrite Hxy, IH.
Qed.

Lemma Qsum_const (l : list Q) (d : Q) :
  (forall x, In x l -> (x == d)%Q) ->
  (Qsum l == inject_Z (Z.of_nat (List.length l)) * d)%Q.
Proof.
  induction l as [|x l IH]; intros H.
  - simpl. ring.
  - cbn [Qsum fold_right List.length].
    fold (Qsum l). rewrite IH by (intros; apply H; now right).
    rewrite (H x) by now left.
    rewrite Nat2Z.inj_succ. unfold Z.succ. rewrite inject_Z_plus. ring.
Qed.

Lemma inject_Z_length_nonzero {A} (l : list A) :
  l <> [] -> ~ (inject_Z (Z.of_nat (List.length l)) == 0)%Q.
Proof.
  intros Hl H. destruct l as [|x l]; [congruence|].
  unfold Qeq in H. simpl in H. lia.
Qed.

Lemma arith_mean_perm (l l' : list Q) :
  Permutation l l' -> (arith_mean l == arith_mean l')%Q.
Proof.
  intros H. unfold arith_mean.
  now rewrite (Qsum_perm _ _ H), (Permutation_length H).
Qed.

Lemma arith_mean_compat (l l' : list Q) :
  Forall2 Qeq l l' -> (arith_mean l == arith_mean l')%Q.
Proof.
  intros H. unfold arith_mean.
  now rewrite (Qsum_compat _ _ H), (Forall2_length H).
Qed.

Lemma arith_mean_const (l : list Q) (d : Q) :
  l <> [] -> (forall x, In x l -> (x == d)%Q) -> (arith_mean l == d)%Q.
Proof.
  intros Hl H. unfold arith_mean. rewrite (Qsum_const l d H).
  field. now apply inject_Z_length_nonzero.
Qed.

(** [np.mean] of finite values is their arithmetic mean. *)
Lemma np_mean_Fin (l : list Q) :
  l <> [] -> exists m, np_mean (map Fin l) = Fin m /\ (m == arith_mean l)%Q.
Proof.
  intros Hl. destruct l as [|x l]; [congruence|].
  unfold np_mean, fsum. cbn [map].
  rewrite <- (map_cons Fin x l), fold_left_fadd_Fin.
  eexists; split; [reflexivity|].
  unfold arith_mean. rewrite fold_left_Qplus_Qsum, length_map.
  now rewrite Qplus_0_l.
Qed.

Lemma np_mean_nil : np_mean [] = NaN.
Proof. reflexivity. Qed.
(** ** Completion order *)

Lemma insert_at_perm {A} (p : nat) (x : A) (l : list A) :
  Permutation (insert_at p x l) (x :: l).
Proof.
  unfold insert_at. rewrite <- (firstn_skipn p l) at 3.
  symmetry. apply Permutation_middle.
Qed.

Lemma insert_at_map {A B} (f : A -> B) p x l :
  insert_at p (f x) (map f l) = map f (insert_at p x l).
Proof.
  unfold insert_at. now rewrite map_app, firstn_map, skipn_map.
Qed.

Lemma as_completed_perm {A} (code : list nat) (l : list A) :
  Permutation (as_completed code l) l.
Proof.
  revert code. induction l as [|x l IH]; intros code; simpl; [constructor|].
  destruct code as [|p code].
  - constructor. apply IH.
  - rewrite insert_at_perm. constructor. apply IH.
Qed.

Lemma as_completed_map {A B} (f : A -> B) code (l : list A) :
  as_completed code (map f l) = map f (as_completed code l).
Proof.
  revert code. induction l as [|x l IH]; intros code; simpl; [reflexivity|].
  destruct code as [|p code].
  - now rewrite IH.
  - now rewrite IH, insert_at_map.
Qed.

(** Every completion order is the meaning of some code. *)
Lemma as_completed_complete {A} (l l' : list A) :
  Permutation l l' -> exists code, as_completed code l = l'.
Proof.
  revert l'. induction l as [|x l IH]; intros l' H.
  - apply Permutation_nil in H. subst. now exists [].
  - assert (Hin : In x l') by (eapply Permutation_in; [exact H|now left]).
    apply in_split in Hin. destruct Hin as (a & b & ->).
    apply Permutation_cons_app_inv in H.
    destruct (IH _ H) as (code & Hc).
    exists (List.length a :: code). simpl. rewrite Hc.
    unfold insert_at.
    rewrite firstn_app, Nat.sub_diag, firstn_all, firstn_O, app_nil_r.
    rewrite skipn_app, Nat.sub_diag, skipn_all. reflexivity.
Qed.

(** ** Collecting the futures *)

Lemma collect_ok {A} (fs : list (Future A)) (l : list A) :
  collect fs = Ok l <-> fs = map Ok l.
Proof.
  revert l. induction fs as [|[a|e] fs IH]; intros l; simpl.
  - split; intros H.
    + inversion H; reflexivity.
    + destruct l; [reflexivity|discriminate].
  - destruct (collect fs) as [l0|e0].
    + split; intros H.
      * inversion H; subst. simpl. f_equal. now apply IH.
      * destruct l as [|b l]; [discriminate|]. inversion H; subst.
        f_equal. f_equal. assert (E : Ok l0 = Ok l) by now apply IH.
        now inversion E.
    + split; intros H; [discriminate|].
      destruct l as [|b l]; [discriminate|]. inversion H; subst.
      assert (E : @Raise (list A) e0 = Ok l) by now apply IH. discriminate.
  - split; intros H; [discriminate|]. destruct l; discriminate.
Qed.

Lemma collect_raise {A} (fs : list (Future A)) (e : exn) :
  collect fs = Raise e <-> first_failure fs = Some e.
Proof.
  induction fs as [|[a|e'] fs IH]; simpl.
  - split; discriminate.
  - destruct (collect fs) as [l0|e0].
    + split; [discriminate|]. intros H. apply IH in H. discriminate.
    + rewrite <- IH. split; intros H; inversion H; reflexivity.
  - split; intros H; inversion H; reflexivity.
Qed.

Lemma first_failure_none {A} (fs : list (Future A)) :
  first_failure fs = None <-> exists l, fs = map Ok l.
Proof.
  destruct (collect fs) as [l|e] eqn:E.
  - split; intros _.
    + exists l. now apply collect_ok.
    + destruct (first_failure fs) as [e|] eqn:F; [|reflexivity].
      apply collect_raise in F. congruence.
  - split; intros H.
    + apply collect_raise in E. congruence.
    + destruct H as (l & H). apply collect_ok in H. congruence.
Qed.

Lemma first_failure_in {A} (fs : list (Future A)) (e : exn) :
  first_failure fs = Some e -> In (Raise e) fs.
Proof.
  induction fs as [|[a|e'] fs IH]; simpl; intros H.
  - discriminate.
  - right. now apply IH.
  - inversion H. now left.
Qed.

Lemma in_raise_first_failure {A} (fs : list (Future A)) (e : exn) :
  In (Raise e) fs -> exists e', first_failure fs = Some e'.
Proof.
  induction fs as [|[a|e'] fs IH]; simpl; intros H.
  - contradiction.
  - destruct H as [H|H]; [discriminate|]. now apply IH.
  - now exists e'.
Qed.
(** ** One trial *)

Lemma request_future_raise te n e :
  In (Raise e) (map (request_future te) (seq 0 n)) <->
  exists i err, (i < n)%nat /\ answer (served te i) = Fails err /\ e = PredictError err.
Proof.
  rewrite in_map_iff. split.
  - intros (i & Hi & Hin). apply in_seq in Hin. unfold request_future in Hi.
    destruct (answer (served te i)) as [|err] eqn:E; [discriminate|].
    inversion Hi. exists i, err. repeat split; auto; lia.
  - intros (i & err & Hi & Ha & ->). exists i. split.
    + unfold request_future. now rewrite Ha.
    + apply in_seq. lia.
Qed.

Lemma in_completion_order c te (f : Future Q) :
  In f (futures_in_completion_order c te) <->
  In f (map (request_future te) (seq 0 (Z.to_nat c))).
Proof.
  unfold futures_in_completion_order.
  split; apply Permutation_in; [|symmetry]; apply as_completed_perm.
Qed.

Lemma all_respond_of_collect c te batch :
  collect (futures_in_completion_order c te) = Ok batch ->
  forall i, (i < Z.to_nat c)%nat -> answer (served te i) = Responds.
Proof.
  intros H i Hi. apply collect_ok in H.
  destruct (answer (served te i)) as [|err] eqn:E; [reflexivity|exfalso].
  assert (Hin : In (Raise (PredictError err)) (futures_in_completion_order c te)).
  { apply in_completion_order, request_future_raise. now exists i, err. }
  rewrite H in Hin. apply in_map_iff in Hin. destruct Hin as (x & Hx & _). discriminate.
Qed.

Lemma batch_is_permutation c te batch :
  collect (futures_in_completion_order c te) = Ok batch ->
  Permutation batch (map (request_latency te) (seq 0 (Z.to_nat c))).
Proof.
  intros H. pose proof (all_respond_of_collect _ _ _ H) as Hall.
  apply collect_ok in H.
  assert (P : Permutation (map Ok batch) (map (request_future te) (seq 0 (Z.to_nat c)))).
  { rewrite <- H. apply as_completed_perm. }
  apply (Permutation_map (value_of 0%Q)) in P.
  rewrite !map_map in P. simpl in P. rewrite map_id in P.
  rewrite P. erewrite map_ext_in; [reflexivity|].
  intros i Hi. apply in_seq in Hi. unfold request_future.
  rewrite Hall by lia. reflexivity.
Qed.

Lemma trial_outcome_ok_inv c te lat thr :
  trial_outcome c te = Ok (lat, thr) ->
  (forall i, (i < Z.to_nat c)%nat -> answer (served te i) = Responds) /\
  ~ (trial_elapsed te == 0)%Q /\
  thr = Fin (inject_Z c / trial_elapsed te)%Q /\
  exists batch,
    Permutation batch (map (request_latency te) (seq 0 (Z.to_nat c))) /\
    lat = np_mean (map Fin batch).
Proof.
  unfold trial_outcome, finish_trial. destruct (collect _) as [batch|e] eqn:E; [|discriminate].
  destruct (Qeq_bool (trial_elapsed te) 0) eqn:Z0; [discriminate|].
  intros H; inversion H; subst. repeat split.
  - eapply all_respond_of_collect; eauto.
  - now apply Qeq_bool_neq.
  - exists batch. split; [now apply batch_is_permutation|reflexivity].
Qed.

Lemma trial_outcome_raise_inv c te e :
  trial_outcome c te = Raise e ->
  first_failure (futures_in_completion_order c te) = Some e \/
  (e = ZeroDivisionError /\ (trial_elapsed te == 0)%Q /\
   forall i, (i < Z.to_nat c)%nat -> answer (served te i) = Responds).
Proof.
  unfold trial_outcome, finish_trial. destruct (collect _) as [batch|e'] eqn:E.
  - destruct (Qeq_bool (trial_elapsed te) 0) eqn:Z0; [|discriminate].
    intros H; inversion H; subst. right. repeat split.
    + now apply Qeq_bool_iff.
    + eapply all_respond_of_collect; eauto.
  - intros H; inversion H; subst. left. now apply collect_raise.
Qed.

Lemma first_failure_is_predict_error c te e :
  first_failure (futures_in_completion_order c te) = Some e ->
  exists i err, (i < Z.to_nat c)%nat /\ answer (served te i) = Fails err /\
                e = PredictError err.
Proof.
  intros H. apply first_failure_in, in_completion_order in H.
  now apply request_future_raise.
Qed.

Lemma trial_calls_in payload k j c te ev :
  In ev (trial_calls payload k j c te) <->
  exists i, (i < Z.to_nat c)%nat /\ ev = Predict k j i payload (answer (served te i)).
Proof.
  unfold trial_calls. rewrite in_map_iff. split.
  - intros (i & <- & Hi). apply in_seq in Hi. exists i. split; [lia|reflexivity].
  - intros (i & Hi & ->). exists i. split; [reflexivity|apply in_seq; lia].
Qed.

Lemma trial_calls_clean payload k j c te :
  (forall i, (i < Z.to_nat c)%nat -> answer (served te i) = Responds) ->
  clean (trial_calls payload k j c te).
Proof.
  intros H k' j' i d err Hin. apply trial_calls_in in Hin.
  destruct Hin as (i0 & Hi & E). rewrite (H _ Hi) in E. discriminate.
Qed.

Lemma trial_calls_failed payload k j c te k' j' i d err :
  In (Predict k' j' i d (Fails err)) (trial_calls payload k j c te) ->
  exists e, first_failure (futures_in_completion_order c te) = Some e.
Proof.
  intros Hin. apply trial_calls_in in Hin. destruct Hin as (i0 & Hi & E).
  inversion E; subst.
  apply (in_raise_first_failure _ (PredictError err)).
  apply in_completion_order, request_future_raise. now exists i0, err.
Qed.

Lemma trial_calls_length payload k j c te :
  List.length (trial_calls payload k j c te) = Z.to_nat c.
Proof. unfold trial_calls. now rewrite length_map, length_seq. Qed.

Lemma run_trial_ok_inv payload k j c te lg v :
  run_trial payload k j c te = (lg, Ok v) ->
  0 < c /\ lg = trial_calls payload k j c te /\ trial_outcome c te = Ok v.
Proof.
  rewrite run_trial_eq. destruct (c <=? 0) eqn:E; [discriminate|].
  intros H; inversion H; subst. repeat split; auto. apply Z.leb_gt in E. lia.
Qed.

Lemma run_trial_raise_inv payload k j c te lg e :
  run_trial payload k j c te = (lg, Raise e) ->
  (c <= 0 /\ lg = [] /\ e = ValueError) \/
  (0 < c /\ lg = trial_calls payload k j c te /\ trial_outcome c te = Raise e).
Proof.
  rewrite run_trial_eq. destruct (c <=? 0) eqn:E.
  - intros H; inversion H; subst. left. apply Z.leb_le in E. auto.
  - intros H; inversion H; subst. right. apply Z.leb_gt in E. auto.
Qed.
(** ** The loop over the trials of one level *)

Lemma trials_loop_ok_inv payload k c tenv js L T log L' T' :
  trials_loop payload k c tenv js L T = (log, Ok (L', T')) ->
  log = level_calls payload k c tenv js /\
  (js <> [] -> 0 < c) /\
  exists vals,
    Forall2 (fun j v => trial_outcome c (tenv j) = Ok v) js vals /\
    L' = L ++ map fst vals /\ T' = T ++ map snd vals.
Proof.
  revert L T log. induction js as [|j js IH]; intros L T log H.
  - inversion H; subst. split; [reflexivity|]. split; [congruence|].
    exists []. simpl. rewrite !app_nil_r. auto.
  - simpl in H. apply bind_ok in H. destruct H as (l1 & [lat thr] & l2 & H1 & H2 & ->).
    apply run_trial_ok_inv in H1. destruct H1 as (Hc & -> & Ho).
    apply IH in H2. destruct H2 as (-> & _ & vals & HF & -> & ->).
    split; [reflexivity|]. split; [auto|].
    exists ((lat, thr) :: vals). simpl. rewrite <- !app_assoc. simpl. auto.
Qed.

Lemma trials_loop_raise_inv payload k c tenv js L T log e :
  trials_loop payload k c tenv js L T = (log, Raise e) ->
  exists js1 j js2 lg,
    js = js1 ++ j :: js2 /\
    log = level_calls payload k c tenv js1 ++ lg /\
    Forall (fun j' => exists v, trial_outcome c (tenv j') = Ok v) js1 /\
    run_trial payload k j c (tenv j) = (lg, Raise e).
Proof.
  revert L T log. induction js as [|j js IH]; intros L T log H.
  - discriminate.
  - simpl in H. apply bind_raise in H. destruct H as [H|(l1 & [lat thr] & l2 & H1 & H2 & ->)].
    + exists [], j, js, log. simpl. auto.
    + apply run_trial_ok_inv in H1. destruct H1 as (Hc & -> & Ho).
      apply IH in H2. destruct H2 as (js1 & j' & js2 & lg & -> & -> & HF & Hr).
      exists (j :: js1), j', js2, lg. simpl. rewrite <- app_assoc.
      repeat split; auto. constructor; eauto.
Qed.

Lemma level_calls_clean payload k c tenv js :
  Forall (fun j => exists v, trial_outcome c (tenv j) = Ok v) js ->
  clean (level_calls payload k c tenv js).
Proof.
  intros HF k' j' i d err Hin. unfold level_calls in Hin.
  apply in_flat_map in Hin. destruct Hin as (j & Hj & Hin).
  rewrite Forall_forall in HF. destruct (HF _ Hj) as ([lat thr] & Ho).
  apply trial_outcome_ok_inv in Ho. destruct Ho as (Hall & _).
  now apply (trial_calls_clean payload k j c (tenv j) Hall k' j' i d err).
Qed.

Lemma Forall2_ok_Forall {A B} (P : A -> B -> Prop) l l' :
  Forall2 P l l' -> Forall (fun a => exists b, P a b) l.
Proof. induction 1; constructor; eauto. Qed.

(** ** One level *)

Lemma run_level_ok_inv payload t env k c log al ath :
  run_level payload t env k c = (log, Ok (al, ath)) ->
  log = level_calls payload k c (env k) (py_range t) /\
  (0 < t -> 0 < c) /\
  exists vals,
    Forall2 (fun j v => trial_outcome c (env k j) = Ok v) (py_range t) vals /\
    al = np_mean (map fst vals) /\ ath = np_mean (map snd vals).
Proof.
  unfold run_level. intros H.
  apply bind_ok in H. destruct H as (l1 & [L T] & l2 & H1 & H2 & ->).
  inversion H2; subst. rewrite app_nil_r.
  apply trials_loop_ok_inv in H1. destruct H1 as (-> & Hc & vals & HF & -> & ->).
  split; [reflexivity|]. split.
  - intros Ht. apply Hc. unfold py_range.
    destruct (Z.to_nat t) eqn:E; [lia|discriminate].
  - exists vals. auto.
Qed.

Lemma run_level_raise_inv payload t env k c log e :
  run_level payload t env k c = (log, Raise e) ->
  exists js1 j js2 lg,
    py_range t = js1 ++ j :: js2 /\
    log = level_calls payload k c (env k) js1 ++ lg /\
    clean (level_calls payload k c (env k) js1) /\
    run_trial payload k j c (env k j) = (lg, Raise e).
Proof.
  unfold run_level. intros H.
  apply bind_raise in H. destruct H as [H|(l1 & [L T] & l2 & H1 & H2 & ->)].
  - apply trials_loop_raise_inv in H.
    destruct H as (js1 & j & js2 & lg & E & -> & HF & Hr).
    exists js1, j, js2, lg. repeat split; auto. now apply level_calls_clean.
  - discriminate.
Qed.

Lemma run_level_ok_clean payload t env k c log row :
  run_level payload t env k c = (log, Ok row) -> clean log.
Proof.
  destruct row as [al ath]. intros H. apply run_level_ok_inv in H.
  destruct H as (-> & _ & vals & HF & _).
  apply level_calls_clean. eapply Forall2_ok_Forall; eauto.
Qed.

(** ** The loop over the levels *)

Lemma levels_loop_ok_inv payload t env k steps rc L T log rc' L' T' :
  levels_loop payload t env k steps rc L T = (log, Ok (rc', L', T')) ->
  exists rows,
    levels_run payload t env k steps rows log /\
    rc' = rc ++ steps /\ L' = L ++ map fst rows /\ T' = T ++ map snd rows.
Proof.
  revert k rc L T log. induction steps as [|c steps IH]; intros k rc L T log H.
  - inversion H; subst. exists []. rewrite !app_nil_r. repeat split. constructor.
  - simpl in H. apply bind_ok in H. destruct H as (l1 & [al ath] & l2 & H1 & H2 & ->).
    cbn in H2. destruct (levels_loop _ _ _ _ _ _ _ _) as [l4 r] eqn:H4.
    inversion H2; subst. apply IH in H4.
    destruct H4 as (rows & Hrun & -> & -> & ->).
    exists ((al, ath) :: rows). rewrite <- !app_assoc. simpl. repeat split.
    apply (levels_run_cons payload t env k c steps (al, ath) rows l1 l4 H1 Hrun).
Qed.

Lemma levels_loop_raise_inv payload t env k steps rc L T log e :
  levels_loop payload t env k steps rc L T = (log, Raise e) ->
  exists steps1 c steps2 rows pre lg,
    steps = steps1 ++ c :: steps2 /\
    levels_run payload t env k steps1 rows pre /\
    run_level payload t env (k + List.length steps1) c = (lg, Raise e) /\
    log = pre ++ lg.
Proof.
  revert k rc L T log. induction steps as [|c steps IH]; intros k rc L T log H.
  - discriminate.
  - simpl in H. apply bind_raise in H.
    destruct H as [H|(l1 & [al ath] & l2 & H1 & H2 & ->)].
    + exists [], c, steps, [], [], log. simpl. rewrite Nat.add_0_r.
      repeat split; auto. constructor.
    + cbn in H2. destruct (levels_loop _ _ _ _ _ _ _ _) as [l4 r] eqn:H4.
      inversion H2; subst. apply IH in H4.
      destruct H4 as (steps1 & c' & steps2 & rows & pre & lg & -> & Hrun & Hr & ->).
      exists (c :: steps1), c', steps2, ((al, ath) :: rows),
             (l1 ++ Printed c al ath :: pre), lg.
      simpl. rewrite <- Nat.add_succ_comm in *. rewrite <- !app_assoc. simpl.
      repeat split; auto.
      apply (levels_run_cons payload t env k c steps1 (al, ath) rows l1 pre H1 Hrun).
Qed.

Lemma clean_app l1 l2 : clean l1 -> clean l2 -> clean (l1 ++ l2).
Proof.
  intros H1 H2 k j i d err Hin. apply in_app_or in Hin.
  destruct Hin as [Hin|Hin]; [eapply H1|eapply H2]; eauto.
Qed.

Lemma levels_run_clean payload t env k steps rows log :
  levels_run payload t env k steps rows log -> clean log.
Proof.
  induction 1 as [|k c steps row rows lg log Hl _ IH].
  - intros ? ? ? ? ? [].
  - apply clean_app; [eapply run_level_ok_clean; eauto|].
    intros k' j i d err [Hin|Hin]; [discriminate|]. eapply IH; eauto.
Qed.

Lemma levels_run_length payload t env k steps rows log :
  levels_run payload t env k steps rows log -> List.length rows = List.length steps.
Proof. induction 1; simpl; auto. Qed.

Lemma levels_run_nth payload t env k steps rows log i c :
  levels_run payload t env k steps rows log ->
  nth_error steps i = Some c ->
  exists row lg, nth_error rows i = Some row /\
                 run_level payload t env (k + i) c = (lg, Ok row).
Proof.
  intros H. revert i. induction H as [|k c0 steps row rows lg log Hl _ IH]; intros i Hi.
  - destruct i; discriminate.
  - destruct i as [|i]; simpl in *.
    + inversion Hi; subst. rewrite Nat.add_0_r. eauto.
    + rewrite <- Nat.add_succ_comm. now apply IH.
Qed.
(** ** Calls per level *)

Lemma calls_of_level_app k l1 l2 :
  calls_of_level k (l1 ++ l2) = calls_of_level k l1 ++ calls_of_level k l2.
Proof. apply filter_app. Qed.

Lemma calls_of_level_trial_calls k k' payload j c te :
  calls_of_level k (trial_calls payload k' j c te)
  = if Nat.eqb k' k then trial_calls payload k' j c te else [].
Proof.
  unfold trial_calls, calls_of_level.
  induction (seq 0 (Z.to_nat c)) as [|i l IHl]; simpl.
  - now destruct (Nat.eqb k' k).
  - rewrite IHl. now destruct (Nat.eqb k' k).
Qed.

Lemma calls_of_level_level_calls k k' payload c tenv js :
  calls_of_level k (level_calls payload k' c tenv js)
  = if Nat.eqb k' k then level_calls payload k' c tenv js else [].
Proof.
  unfold level_calls.
  induction js as [|j js IH]; simpl.
  - now destruct (Nat.eqb k' k).
  - rewrite calls_of_level_app, IH, calls_of_level_trial_calls.
    now destruct (Nat.eqb k' k).
Qed.

Lemma level_calls_length payload k c tenv js :
  List.length (level_calls payload k c tenv js) = (Z.to_nat c * List.length js)%nat.
Proof.
  unfold level_calls. induction js as [|j js IH]; simpl; [lia|].
  rewrite length_app, IH, trial_calls_length. lia.
Qed.

Lemma level_calls_in payload k c tenv js ev :
  In ev (level_calls payload k c tenv js) <->
  exists j i, In j js /\ (i < Z.to_nat c)%nat /\
              ev = Predict k j i payload (answer (served (tenv j) i)).
Proof.
  unfold level_calls. rewrite in_flat_map. split.
  - intros (j & Hj & Hin). apply trial_calls_in in Hin.
    destruct Hin as (i & Hi & ->). now exists j, i.
  - intros (j & i & Hj & Hi & ->). exists j. split; [assumption|].
    apply trial_calls_in. now exists i.
Qed.

Lemma run_level_log_ok payload t env k c log row :
  run_level payload t env k c = (log, Ok row) ->
  log = level_calls payload k c (env k) (py_range t).
Proof. destruct row. intros H. now apply run_level_ok_inv in H. Qed.

Lemma levels_run_calls_before payload t env k0 steps rows log k :
  levels_run payload t env k0 steps rows log ->
  (k < k0)%nat -> calls_of_level k log = [].
Proof.
  induction 1 as [|k0 c steps row rows lg log Hl _ IH]; intros Hk; [reflexivity|].
  rewrite calls_of_level_app.
  rewrite (run_level_log_ok _ _ _ _ _ _ _ Hl), calls_of_level_level_calls.
  assert (E : Nat.eqb k0 k = false) by (apply Nat.eqb_neq; lia).
  rewrite E. simpl. apply IH. lia.
Qed.

Lemma levels_run_calls payload t env k0 steps rows log i c :
  levels_run payload t env k0 steps rows log ->
  nth_error steps i = Some c ->
  calls_of_level (k0 + i) log
  = level_calls payload (k0 + i) c (env (k0 + i)%nat) (py_range t).
Proof.
  intros H. revert i.
  induction H as [|k0 c0 steps row rows lg log Hl Hrest IH]; intros i Hi.
  - destruct i; discriminate.
  - rewrite calls_of_level_app.
    rewrite (run_level_log_ok _ _ _ _ _ _ _ Hl), calls_of_level_level_calls.
    destruct i as [|i]; simpl in Hi.
    + inversion Hi; subst. rewrite Nat.add_0_r, Nat.eqb_refl. simpl.
      rewrite (levels_run_calls_before _ _ _ _ _ _ _ k0 Hrest) by lia.
      now rewrite app_nil_r.
    + assert (E : Nat.eqb k0 (k0 + S i) = false) by (apply Nat.eqb_neq; lia).
      rewrite E. simpl. rewrite <- Nat.add_succ_comm. now apply IH.
Qed.

Lemma py_range_length t : List.length (py_range t) = Z.to_nat t.
Proof. unfold py_range. apply length_seq. Qed.

Lemma py_range_in t j : In j (py_range t) <-> (j < Z.to_nat t)%nat.
Proof. unfold py_range. rewrite in_seq. lia. Qed.

Lemma benchmark_ok_inv env payload steps t log rc lats thrs :
  benchmark_predictor env payload steps t = (log, Ok (rc, lats, thrs)) ->
  exists rows,
    levels_run payload t env 0 steps rows log /\
    rc = steps /\ lats = map fst rows /\ thrs = map snd rows.
Proof.
  unfold benchmark_predictor. intros H. apply levels_loop_ok_inv in H.
  destruct H as (rows & Hrun & -> & -> & ->). now exists rows.
Qed.
(** ** The report *)

(** C7.  With an empty list of concurrency levels, [benchmark_predictor]
    returns three empty lists and its log is empty: the predictor is not
    called (and nothing is printed). *)
Theorem empty_steps_empty_report (env : Env) (payload : PyValue) (iterations : Z) :
  benchmark_predictor env payload [] iterations = ([], Ok ([], [], [])).
Proof. reflexivity. Qed.

(** C2.  A run that returns gives three lists with one entry per entry of
    [steps], in the order of [steps]: [request_counts] is [steps] itself,
    and the [k]-th latency and throughput are the ones computed for the
    [k]-th level. *)
Theorem report_follows_steps (env : Env) (payload : PyValue) (steps : list Z)
    (iterations : Z) (log : list event)
    (request_counts : list Z) (latencies throughputs : list pyfloat) :
  benchmark_predictor env payload steps iterations
    = (log, Ok (request_counts, latencies, throughputs)) ->
  request_counts = steps /\
  List.length latencies = List.length steps /\
  List.length throughputs = List.length steps /\
  forall k c, nth_error steps k = Some c ->
    exists lg avg_latency avg_throughput,
      run_level payload iterations env k c = (lg, Ok (avg_latency, avg_throughput)) /\
      nth_error request_counts k = Some c /\
      nth_error latencies k = Some avg_latency /\
      nth_error throughputs k = Some avg_throughput.
Proof.
  intros H. apply benchmark_ok_inv in H. destruct H as (rows & Hrun & -> & -> & ->).
  rewrite !length_map, (levels_run_length _ _ _ _ _ _ _ Hrun).
  repeat split. intros k c Hk.
  destruct (levels_run_nth _ _ _ _ _ _ _ k c Hrun Hk) as ([al ath] & lg & Hrow & Hl).
  exists lg, al, ath. simpl in Hl. repeat split; auto.
  - now rewrite nth_error_map, Hrow.
  - now rewrite nth_error_map, Hrow.
Qed.

(** C3.  In a run that returns, with [iterations = t >= 0], the level at
    position [k] with concurrency [c] accounts for exactly [c * t] calls
    of [predictor.predict], each with the payload given to
    [benchmark_predictor]. *)
Theorem calls_per_level (env : Env) (payload : PyValue) (steps : list Z)
    (t : Z) (log : list event) (report : Report) (k : nat) (c : Z) :
  benchmark_predictor env payload steps t = (log, Ok report) ->
  0 <= t ->
  nth_error steps k = Some c ->
  Z.of_nat (List.length (calls_of_level k log)) = c * t /\
  forall ev, In ev (calls_of_level k log) ->
    exists j i r, ev = Predict k j i payload r.
Proof.
  destruct report as [[rc lats] thrs]. intros H Ht Hk.
  apply benchmark_ok_inv in H. destruct H as (rows & Hrun & _).
  pose proof (levels_run_calls _ _ _ _ _ _ _ k c Hrun Hk) as E. simpl in E.
  rewrite E. split.
  - rewrite level_calls_length, py_range_length.
    destruct (levels_run_nth _ _ _ _ _ _ _ k c Hrun Hk) as ([al ath] & lg & _ & Hl).
    apply run_level_ok_inv in Hl. destruct Hl as (_ & Hc & _).
    destruct (Z.eq_dec t 0) as [->|Hne]; [simpl; lia|].
    assert (0 < c) by (apply Hc; lia).
    rewrite Nat2Z.inj_mul, !Z2Nat.id by lia. reflexivity.
  - intros ev Hin. apply level_calls_in in Hin.
    destruct Hin as (j & i & _ & _ & ->). eauto.
Qed.
(** ** Trial values against the arithmetic means of the design *)

Lemma seq_nonempty (c : Z) : 0 < c -> seq 0 (Z.to_nat c) <> [].
Proof. intros Hc. destruct (Z.to_nat c) eqn:E; [lia|discriminate]. Qed.

Lemma trial_outcome_means c te lat thr :
  0 < c ->
  trial_outcome c te = Ok (lat, thr) ->
  exists m,
    lat = Fin m /\
    (m == arith_mean (map (request_latency te) (seq 0 (Z.to_nat c))))%Q /\
    thr = Fin (inject_Z c / trial_elapsed te)%Q.
Proof.
  intros Hc H. apply trial_outcome_ok_inv in H.
  destruct H as (_ & _ & -> & batch & HP & ->).
  assert (Hne : batch <> []).
  { intros ->. apply Permutation_nil in HP.
    apply map_eq_nil in HP. now apply seq_nonempty in HP. }
  destruct (np_mean_Fin batch Hne) as (m & -> & Hm).
  exists m. repeat split. rewrite Hm. now apply arith_mean_perm.
Qed.

Lemma trial_values_means c (tenv : nat -> trial_env) js vals :
  0 < c ->
  Forall2 (fun j v => trial_outcome c (tenv j) = Ok v) js vals ->
  exists ql,
    map fst vals = map Fin ql /\
    Forall2 Qeq ql
      (map (fun j => arith_mean (map (request_latency (tenv j)) (seq 0 (Z.to_nat c)))) js) /\
    map snd vals = map Fin (map (fun j => inject_Z c / trial_elapsed (tenv j))%Q js).
Proof.
  intros Hc. induction 1 as [|j [lat thr] js vals Hj _ IH].
  - exists []. repeat split. constructor.
  - destruct IH as (ql & E1 & HF & E2).
    destruct (trial_outcome_means _ _ _ _ Hc Hj) as (m & -> & Hm & ->).
    exists (m :: ql). simpl. rewrite E1, E2. repeat split. now constructor.
Qed.

Lemma Forall2_ok_nth {A B} (P : A -> B -> Prop) l l' a :
  Forall2 P l l' -> In a l -> exists b, P a b.
Proof.
  intros H Hin. apply Forall2_ok_Forall in H. rewrite Forall_forall in H. auto.
Qed.
(** C1.  In a run that returns, with [iterations = t >= 1], for the level
    at position [k] with concurrency [c]: every trial [j] yields as its
    latency the arithmetic mean of the durations of its [c] requests and
    as its throughput [c] over its elapsed time; the level's reported
    latency and throughput are the arithmetic means of these over the [t]
    trials; and if every request lasts [d] and every trial lasts [d], the
    level reports latency [d] and throughput [c / d]. *)
Theorem level_result_is_mean_of_trial_means (env : Env) (payload : PyValue)
    (steps : list Z) (t : Z) (log : list event)
    (request_counts : list Z) (latencies throughputs : list pyfloat)
    (k : nat) (c : Z) :
  benchmark_predictor env payload steps t
    = (log, Ok (request_counts, latencies, throughputs)) ->
  1 <= t ->
  nth_error steps k = Some c ->
  (forall j, (j < Z.to_nat t)%nat ->
     exists lg m,
       run_trial payload k j c (env k j)
         = (lg, Ok (Fin m, Fin (inject_Z c / trial_elapsed (env k j))%Q)) /\
       (m == arith_mean (map (request_latency (env k j)) (seq 0 (Z.to_nat c))))%Q) /\
  exists avg_latency avg_throughput,
    nth_error latencies k = Some (Fin avg_latency) /\
    nth_error throughputs k = Some (Fin avg_throughput) /\
    (avg_latency ==
       arith_mean
         (map (fun j => arith_mean (map (request_latency (env k j)) (seq 0 (Z.to_nat c))))
              (py_range t)))%Q /\
    (avg_throughput ==
       arith_mean (map (fun j => inject_Z c / trial_elapsed (env k j)) (py_range t)))%Q /\
    forall d : Q,
      (forall j i, (j < Z.to_nat t)%nat -> (i < Z.to_nat c)%nat ->
                   (request_latency (env k j) i == d)%Q) ->
      (forall j, (j < Z.to_nat t)%nat -> (trial_elapsed (env k j) == d)%Q) ->
      (avg_latency == d)%Q /\ (avg_throughput == inject_Z c / d)%Q.
Proof.
  intros H Ht Hk.
  apply benchmark_ok_inv in H. destruct H as (rows & Hrun & -> & -> & ->).
  destruct (levels_run_nth _ _ _ _ _ _ _ k c Hrun Hk) as ([al ath] & lg & Hrow & Hl).
  simpl in Hl. apply run_level_ok_inv in Hl.
  destruct Hl as (_ & Hc & vals & HF & -> & ->).
  assert (Hcpos : 0 < c) by (apply Hc; lia).
  assert (Hjs : py_range t <> []).
  { unfold py_range. destruct (Z.to_nat t) eqn:E; [lia|discriminate]. }
  split.
  - intros j Hj. apply py_range_in in Hj.
    destruct (Forall2_ok_nth _ _ _ j HF Hj) as ([lat thr] & Ho).
    destruct (trial_outcome_means _ _ _ _ Hcpos Ho) as (m & -> & Hm & ->).
    exists (trial_calls payload k j c (env k j)), m. split; [|exact Hm].
    rewrite run_trial_eq. replace (c <=? 0) with false by (symmetry; apply Z.leb_gt; lia).
    now rewrite Ho.
  - destruct (trial_values_means c (env k) _ _ Hcpos HF) as (ql & E1 & HQ & E2).
    assert (Hql : ql <> []).
    { intros ->. apply Forall2_length in HQ. rewrite length_map in HQ.
      destruct (py_range t); [congruence|discriminate]. }
    assert (Hqt : map (fun j => inject_Z c / trial_elapsed (env k j))%Q (py_range t) <> []).
    { intros E. apply map_eq_nil in E. contradiction. }
    destruct (np_mean_Fin ql Hql) as (ml & Eml & Hml).
    destruct (np_mean_Fin _ Hqt) as (mt & Emt & Hmt).
    assert (Hlat : (ml == arith_mean
         (map (fun j => arith_mean (map (request_latency (env k j)) (seq 0 (Z.to_nat c))))
              (py_range t)))%Q).
    { rewrite Hml. now apply arith_mean_compat. }
    exists ml, mt. split; [|split; [|split; [|split]]].
    + now rewrite nth_error_map, Hrow; simpl; rewrite E1, Eml.
    + now rewrite nth_error_map, Hrow; simpl; rewrite E2, Emt.
    + exact Hlat.
    + exact Hmt.
    + intros d Hreq Hel. split.
      * rewrite Hlat. apply arith_mean_const.
        { intros E. apply map_eq_nil in E. contradiction. }
        intros x Hx. apply in_map_iff in Hx. destruct Hx as (j & <- & Hj).
        apply py_range_in in Hj. apply arith_mean_const.
        { intros E. apply map_eq_nil in E. now apply seq_nonempty in E. }
        intros y Hy. apply in_map_iff in Hy. destruct Hy as (i & <- & Hi).
        apply in_seq in Hi. apply Hreq; lia.
      * rewrite Hmt. apply arith_mean_const; [assumption|].
        intros x Hx. apply in_map_iff in Hx. destruct Hx as (j & <- & Hj).
        apply py_range_in in Hj. now rewrite (Hel j Hj).
Qed.
(** ** Completion order does not matter to the mean *)


Lemma trial_outcome_all_respond c te :
  (forall i, (i < Z.to_nat c)%nat -> answer (served te i) = Responds) ->
  collect (futures_in_completion_order c te)
  = Ok (as_completed (completion te) (map (request_latency te) (seq 0 (Z.to_nat c)))).
Proof.
  intros Hall. apply collect_ok. unfold futures_in_completion_order.
  rewrite <- as_completed_map, map_map. f_equal.
  apply map_ext_in. intros i Hi. apply in_seq in Hi.
  unfold request_future. rewrite Hall by lia. reflexivity.
Qed.

(** ** What an aborted run looks like *)

Lemma seq_split a n js1 j js2 :
  seq a n = js1 ++ j :: js2 ->
  js1 = seq a (List.length js1) /\ j = (a + List.length js1)%nat /\
  (List.length js1 < n)%nat.
Proof.
  revert a n. induction js1 as [|x js1 IH]; intros a n H.
  - destruct n; simpl in H; [discriminate|]. inversion H. simpl. repeat split; lia.
  - destruct n; simpl in H; [discriminate|]. inversion H; subst.
    destruct (IH _ _ H2) as (E1 & E2 & E3). simpl. rewrite <- E1.
    repeat split; lia.
Qed.

Lemma benchmark_raise_inv env payload steps t log e :
  benchmark_predictor env payload steps t = (log, Raise e) ->
  exists k c j rows pre lg,
    nth_error steps k = Some c /\ (j < Z.to_nat t)%nat /\
    levels_run payload t env 0 (firstn k steps) rows pre /\
    clean (level_calls payload k c (env k) (seq 0 j)) /\
    run_trial payload k j c (env k j) = (lg, Raise e) /\
    log = pre ++ level_calls payload k c (env k) (seq 0 j) ++ lg.
Proof.
  unfold benchmark_predictor. intros H. apply levels_loop_raise_inv in H.
  destruct H as (steps1 & c & steps2 & rows & pre & lg & -> & Hrun & Hl & ->).
  simpl in Hl. apply run_level_raise_inv in Hl.
  destruct Hl as (js1 & j & js2 & lg' & Hjs & -> & Hclean & Hr).
  apply seq_split in Hjs. destruct Hjs as (E1 & E2 & E3). simpl in E2. subst j.
  rewrite E1 in Hclean |- *.
  exists (List.length steps1), c, (List.length js1), rows, pre, lg'.
  rewrite firstn_app, Nat.sub_diag, firstn_all, firstn_O, app_nil_r.
  rewrite nth_error_app2, Nat.sub_diag by lia. repeat split; auto.
Qed.

Lemma level_calls_snoc payload k c tenv j :
  level_calls payload k c tenv (seq 0 (S j))
  = level_calls payload k c tenv (seq 0 j) ++ trial_calls payload k j c (tenv j).
Proof.
  unfold level_calls. rewrite seq_S, flat_map_app. simpl. now rewrite app_nil_r.
Qed.

(** A failed call in the log: the run was aborted by the trial holding it. *)
Lemma failed_call_inv env payload steps t k0 j0 i0 d err :
  In (Predict k0 j0 i0 d (Fails err))
     (log_of (benchmark_predictor env payload steps t)) ->
  exists k c j rows pre e,
    nth_error steps k = Some c /\ (j < Z.to_nat t)%nat /\ 0 < c /\
    levels_run payload t env 0 (firstn k steps) rows pre /\
    clean (level_calls payload k c (env k) (seq 0 j)) /\
    first_failure (futures_in_completion_order c (env k j)) = Some e /\
    benchmark_predictor env payload steps t
    = (pre ++ level_calls payload k c (env k) (seq 0 j)
           ++ trial_calls payload k j c (env k j), Raise e).
Proof.
  destruct (benchmark_predictor env payload steps t) as [log [[[rc lats] thrs]|e]] eqn:E;
    simpl; intros Hin.
  - apply benchmark_ok_inv in E. destruct E as (rows & Hrun & _).
    apply levels_run_clean in Hrun. now apply Hrun in Hin.
  - apply benchmark_raise_inv in E.
    destruct E as (k & c & j & rows & pre & lg & Hk & Hj & Hrun & Hclean & Hr & ->).
    assert (Hlg : In (Predict k0 j0 i0 d (Fails err)) lg).
    { apply in_app_or in Hin. destruct Hin as [Hin|Hin].
      - apply levels_run_clean in Hrun. now apply Hrun in Hin.
      - apply in_app_or in Hin. destruct Hin as [Hin|Hin]; [|assumption].
        now apply Hclean in Hin. }
    apply run_trial_raise_inv in Hr.
    destruct Hr as [(_ & -> & _)|(Hc & -> & Ho)]; [contradiction|].
    exists k, c, j, rows, pre, e. repeat split; auto.
    apply trial_outcome_raise_inv in Ho. destruct Ho as [Ho|(_ & _ & Hall)]; [assumption|].
    exfalso. now apply (trial_calls_clean payload k j c (env k j) Hall) in Hlg.
Qed.
(** ** Which requests a log shows *)

Lemma labels_app l1 l2 : labels (l1 ++ l2) = labels l1 ++ labels l2.
Proof. apply flat_map_app. Qed.

Lemma labels_trial_calls payload k j c te :
  labels (trial_calls payload k j c te) = map (fun i => (k, j, i)) (seq 0 (Z.to_nat c)).
Proof.
  unfold trial_calls, labels.
  induction (seq 0 (Z.to_nat c)) as [|i l IH]; simpl; [reflexivity|now f_equal].
Qed.

Lemma labels_trial_calls_NoDup payload k j c te :
  NoDup (labels (trial_calls payload k j c te)).
Proof.
  rewrite labels_trial_calls.
  pose proof (seq_NoDup (Z.to_nat c) 0) as H.
  induction H as [|i l Hi _ IH]; simpl; constructor; [|exact IH].
  rewrite in_map_iff. intros (i' & E & Hin). inversion E; subst. contradiction.
Qed.

Lemma labels_level_calls_in payload k c tenv js k' j' i' :
  In (k', j', i') (labels (level_calls payload k c tenv js)) -> k' = k /\ In j' js.
Proof.
  unfold level_calls. induction js as [|j js IH]; simpl; [contradiction|].
  rewrite labels_app, in_app_iff, labels_trial_calls, in_map_iff.
  intros [(i & E & _)|H].
  - inversion E; subst. auto.
  - destruct (IH H). auto.
Qed.

Lemma labels_level_calls_NoDup payload k c tenv js :
  NoDup js -> NoDup (labels (level_calls payload k c tenv js)).
Proof.
  induction 1 as [|j js Hj _ IH]; [constructor|].
  unfold level_calls. simpl. rewrite labels_app. apply NoDup_app.
  - apply labels_trial_calls_NoDup.
  - exact IH.
  - intros [[k' j'] i'] H1 H2. rewrite labels_trial_calls, in_map_iff in H1.
    destruct H1 as (i & E & _). inversion E; subst.
    apply labels_level_calls_in in H2. now destruct H2.
Qed.

Lemma labels_levels_run_in payload t env k0 steps rows log k' j' i' :
  levels_run payload t env k0 steps rows log ->
  In (k', j', i') (labels log) -> (k0 <= k' < k0 + List.length steps)%nat.
Proof.
  induction 1 as [|k0 c steps row rows lg log Hl _ IH]; simpl; [contradiction|].
  rewrite labels_app, in_app_iff. simpl.
  rewrite (run_level_log_ok _ _ _ _ _ _ _ Hl). intros [H|H].
  - apply labels_level_calls_in in H. lia.
  - apply IH in H. lia.
Qed.

Lemma labels_levels_run_NoDup payload t env k0 steps rows log :
  levels_run payload t env k0 steps rows log -> NoDup (labels log).
Proof.
  induction 1 as [|k0 c steps row rows lg log Hl Hrest IH]; [constructor|].
  rewrite labels_app. simpl. apply NoDup_app.
  - rewrite (run_level_log_ok _ _ _ _ _ _ _ Hl).
    apply labels_level_calls_NoDup, seq_NoDup.
  - exact IH.
  - intros [[k' j'] i'] H1 H2.
    rewrite (run_level_log_ok _ _ _ _ _ _ _ Hl) in H1.
    apply labels_level_calls_in in H1.
    apply (labels_levels_run_in _ _ _ _ _ _ _ _ _ _ Hrest) in H2. lia.
Qed.

Lemma benchmark_labels_NoDup env payload steps t :
  NoDup (labels (log_of (benchmark_predictor env payload steps t))).
Proof.
  destruct (benchmark_predictor env payload steps t) as [log [[[rc lats] thrs]|e]] eqn:E;
    simpl.
  - apply benchmark_ok_inv in E. destruct E as (rows & Hrun & _).
    eapply labels_levels_run_NoDup; eauto.
  - apply benchmark_raise_inv in E.
    destruct E as (k & c & j & rows & pre & lg & Hk & Hj & Hrun & _ & Hr & ->).
    assert (Hlg : exists n, level_calls payload k c (env k) (seq 0 j) ++ lg
                            = level_calls payload k c (env k) (seq 0 n)).
    { apply run_trial_raise_inv in Hr. destruct Hr as [(_ & -> & _)|(_ & -> & _)].
      - exists j. now rewrite app_nil_r.
      - exists (S j). now rewrite level_calls_snoc. }
    destruct Hlg as (n & ->). rewrite labels_app. apply NoDup_app.
    + eapply labels_levels_run_NoDup; eauto.
    + apply labels_level_calls_NoDup, seq_NoDup.
    + intros [[k' j'] i'] H1 H2.
      apply (labels_levels_run_in _ _ _ _ _ _ _ _ _ _ Hrun) in H1.
      apply labels_level_calls_in in H2.
      pose proof (firstn_le_length k steps). lia.
Qed.

Lemma labels_in k j i d r log : In (Predict k j i d r) log -> In (k, j, i) (labels log).
Proof.
  intros H. unfold labels. apply in_flat_map.
  exists (Predict k j i d r). split; [assumption|now left].
Qed.

Lemma NoDup_labels_unique log k j i d r d' r' :
  NoDup (labels log) ->
  In (Predict k j i d r) log -> In (Predict k j i d' r') log ->
  d = d' /\ r = r'.
Proof.
  induction log as [|ev log IH]; simpl; [contradiction|].
  change (labels (ev :: log)) with (labels [ev] ++ labels log).
  intros HN [H1|H1] [H2|H2].
  - subst ev. inversion H2. auto.
  - subst ev. simpl in HN. apply NoDup_cons_iff in HN. destruct HN as (Hn & _).
    exfalso. apply Hn. eapply labels_in; eauto.
  - subst ev. simpl in HN. apply NoDup_cons_iff in HN. destruct HN as (Hn & _).
    exfalso. apply Hn. eapply labels_in; eauto.
  - apply IH; auto. now apply NoDup_app_remove_l in HN.
Qed.
(** ** Runs computed forwards *)

Lemma run_level_no_trials payload t env k c :
  t <= 0 -> run_level payload t env k c = ([], Ok (NaN, NaN)).
Proof.
  intros Ht. unfold run_level, py_range.
  replace (Z.to_nat t) with 0%nat by lia. reflexivity.
Qed.

Lemma run_level_rejected payload t env k c :
  0 < t -> c <= 0 -> run_level payload t env k c = ([], Raise ValueError).
Proof.
  intros Ht Hc. unfold run_level, py_range.
  destruct (Z.to_nat t) as [|n] eqn:E; [lia|].
  cbn [seq trials_loop]. rewrite run_trial_eq.
  replace (c <=? 0) with true by (symmetry; apply Z.leb_le; lia).
  reflexivity.
Qed.

Lemma levels_loop_no_trials payload t env k steps rc L T :
  t <= 0 ->
  levels_loop payload t env k steps rc L T
  = (map (fun c => Printed c NaN NaN) steps,
     Ok (rc ++ steps, L ++ map (fun _ => NaN) steps, T ++ map (fun _ => NaN) steps)).
Proof.
  intros Ht. revert k rc L T. induction steps as [|c steps IH]; intros k rc L T.
  - simpl. now rewrite !app_nil_r.
  - cbn [levels_loop]. rewrite (run_level_no_trials _ _ _ _ _ Ht). cbn.
    rewrite IH. simpl. now rewrite <- !app_assoc.
Qed.

Lemma levels_loop_app payload t env k steps1 rows pre steps2 rc L T :
  levels_run payload t env k steps1 rows pre ->
  levels_loop payload t env k (steps1 ++ steps2) rc L T
  = (pre ++ log_of (levels_loop payload t env (k + List.length steps1) steps2
                      (rc ++ steps1) (L ++ map fst rows) (T ++ map snd rows)),
     outcome_of (levels_loop payload t env (k + List.length steps1) steps2
                   (rc ++ steps1) (L ++ map fst rows) (T ++ map snd rows))).
Proof.
  intros H. revert rc L T.
  induction H as [|k c steps row rows lg log Hl _ IH]; intros rc L T.
  - simpl. rewrite Nat.add_0_r, !app_nil_r. now destruct (levels_loop _ _ _ _ _ _ _ _).
  - cbn [app levels_loop]. rewrite Hl. destruct row as [al ath]. cbn.
    rewrite IH. cbn. rewrite <- !app_assoc. cbn.
    now rewrite <- Nat.add_succ_comm.
Qed.
(** ** Completion order *)


(** ** Failures *)

(** C4.  If the log of a run shows a call of [predictor.predict] that
    raised, the run itself raises an exception raised by such a call: it
    returns no report, hence no latency recorded for the failed call. *)
Theorem failed_predict_reaches_caller (env : Env) (payload : PyValue)
    (steps : list Z) (t : Z) (k j i : nat) (d : PyValue) (err : nat) :
  In (Predict k j i d (Fails err))
     (log_of (benchmark_predictor env payload steps t)) ->
  exists err' k' j' i',
    outcome_of (benchmark_predictor env payload steps t) = Raise (PredictError err') /\
    In (Predict k' j' i' payload (Fails err'))
       (log_of (benchmark_predictor env payload steps t)).
Proof.
  intros Hin. apply failed_call_inv in Hin.
  destruct Hin as (k' & c & j' & rows & pre & e & Hk & Hj & Hc & Hrun & Hclean & Hf & E).
  rewrite E. simpl.
  destruct (first_failure_is_predict_error _ _ _ Hf) as (i' & err' & Hi & Ha & ->).
  exists err', k', j', i'. split; [reflexivity|].
  apply in_or_app. right. apply in_or_app. right.
  apply trial_calls_in. exists i'. now rewrite Ha.
Qed.

(** C10.  If a call of [predictor.predict] raised during a run, then the
    run stopped in the trial of that call: the levels before it had
    completed and had their results, the trials before it in its level had
    completed, all the calls of the trial were made, nothing was done
    after it, and the run raises the exception of the first failed future
    in completion order.  It returns no report, so the results of the
    completed levels reach the caller only as printed lines. *)
Theorem first_failed_future_aborts_run (env : Env) (payload : PyValue)
    (steps : list Z) (t : Z) (k0 j0 i0 : nat) (d : PyValue) (err : nat) :
  In (Predict k0 j0 i0 d (Fails err))
     (log_of (benchmark_predictor env payload steps t)) ->
  exists k c j rows pre e,
    nth_error steps k = Some c /\ (j < Z.to_nat t)%nat /\
    levels_run payload t env 0 (firstn k steps) rows pre /\
    List.length rows = k /\
    clean (pre ++ level_calls payload k c (env k) (seq 0 j)) /\
    first_failure (futures_in_completion_order c (env k j)) = Some e /\
    benchmark_predictor env payload steps t
    = (pre ++ level_calls payload k c (env k) (seq 0 j)
           ++ trial_calls payload k j c (env k j), Raise e).
Proof.
  intros Hin. apply failed_call_inv in Hin.
  destruct Hin as (k & c & j & rows & pre & e & Hk & Hj & Hc & Hrun & Hclean & Hf & E).
  exists k, c, j, rows, pre, e. repeat split; auto.
  - rewrite (levels_run_length _ _ _ _ _ _ _ Hrun), length_firstn.
    assert (k < List.length steps)%nat by (apply nth_error_Some; congruence). lia.
  - apply clean_app; [eapply levels_run_clean; eauto|assumption].
Qed.

(** C6.  In the log of any run, returned or aborted, no request is
    called twice: the labels (level, trial, request) of the calls are
    pairwise distinct, so a call that raised is the only call made for
    its request. *)
Theorem no_request_is_retried (env : Env) (payload : PyValue)
    (steps : list Z) (t : Z) :
  NoDup (labels (log_of (benchmark_predictor env payload steps t))) /\
  forall k j i d err d' r',
    In (Predict k j i d (Fails err))
       (log_of (benchmark_predictor env payload steps t)) ->
    In (Predict k j i d' r')
       (log_of (benchmark_predictor env payload steps t)) ->
    d' = d /\ r' = Fails err.
Proof.
  pose proof (benchmark_labels_NoDup env payload steps t) as HN.
  split; [exact HN|].
  intros k j i d err d' r' H1 H2.
  destruct (NoDup_labels_unique _ _ _ _ _ _ _ _ HN H1 H2). auto.
Qed.

(** ** Configuration *)

(** C5, as the code has it.  Nothing is validated up front.  With
    [iterations <= 0] the run raises nothing and calls nothing: it prints
    and returns one entry per level, with [nan] for latency and
    throughput.  With [iterations >= 1] a non-positive level raises
    [ValueError] when the loop reaches it: after everything the levels
    before it did, and before any call for that level. *)
Theorem configuration_is_not_validated (env : Env) (payload : PyValue)
    (steps : list Z) (t : Z) :
  (t <= 0 ->
   benchmark_predictor env payload steps t
   = (map (fun c => Printed c NaN NaN) steps,
      Ok (steps, map (fun _ => NaN) steps, map (fun _ => NaN) steps))) /\
  (forall steps1 c steps2 rows pre,
     0 < t -> c <= 0 ->
     steps = steps1 ++ c :: steps2 ->
     levels_run payload t env 0 steps1 rows pre ->
     benchmark_predictor env payload steps t = (pre, Raise ValueError)).
Proof.
  split.
  - intros Ht. unfold benchmark_predictor. now rewrite levels_loop_no_trials.
  - intros steps1 c steps2 rows pre Ht Hc -> Hrun.
    unfold benchmark_predictor. rewrite (levels_loop_app _ _ _ _ _ _ _ _ _ _ _ Hrun).
    cbn [levels_loop]. rewrite (run_level_rejected _ _ _ _ _ Ht Hc). cbn.
    now rewrite app_nil_r.
Qed.
(** ** Well-behaved environments give a report *)

Lemma run_trial_returns payload k j c te :
  0 < c ->
  (forall i, (i < Z.to_nat c)%nat -> answer (served te i) = Responds) ->
  ~ (trial_elapsed te == 0)%Q ->
  exists latency,
    run_trial payload k j c te
    = (trial_calls payload k j c te,
       Ok (latency, Fin (inject_Z c / trial_elapsed te)%Q)).
Proof.
  intros Hc Hall Hel. rewrite run_trial_eq.
  replace (c <=? 0) with false by (symmetry; apply Z.leb_gt; lia).
  unfold trial_outcome. rewrite (trial_outcome_all_respond c te Hall).
  unfold finish_trial. destruct (Qeq_bool (trial_elapsed te) 0) eqn:E.
  - apply Qeq_bool_iff in E. contradiction.
  - eexists. reflexivity.
Qed.

Lemma trials_loop_returns payload k c tenv js L T :
  0 < c ->
  (forall j, In j js ->
     (forall i, (i < Z.to_nat c)%nat -> answer (served (tenv j) i) = Responds) /\
     ~ (trial_elapsed (tenv j) == 0)%Q) ->
  exists L' T',
    trials_loop payload k c tenv js L T
    = (level_calls payload k c tenv js, Ok (L', T')).
Proof.
  intros Hc. revert L T. induction js as [|j js IH]; intros L T Hjs.
  - exists L, T. reflexivity.
  - destruct (Hjs j (or_introl eq_refl)) as (Hall & Hel).
    destruct (run_trial_returns payload k j c (tenv j) Hc Hall Hel) as (lat & E).
    destruct (IH (L ++ [lat]) (T ++ [Fin (inject_Z c / trial_elapsed (tenv j))%Q]))
      as (L' & T' & E').
    { intros j' Hj'. apply Hjs. now right. }
    exists L', T'. cbn [trials_loop]. rewrite E. cbn. rewrite E'. reflexivity.
Qed.

(** X9.  If every level is positive, every request is answered and no
    trial takes zero time, the run returns a report, whose request counts
    are the levels. *)
Lemma well_behaved_run_returns env payload steps t :
  Forall (fun c => 0 < c) steps ->
  (forall k j i, answer (served (env k j) i) = Responds) ->
  (forall k j, ~ (trial_elapsed (env k j) == 0)%Q) ->
  exists log latencies throughputs,
    benchmark_predictor env payload steps t = (log, Ok (steps, latencies, throughputs)).
Proof.
  intros Hpos Hall Hel. unfold benchmark_predictor.
  assert (G : forall k rc L T,
    exists log L' T',
      levels_loop payload t env k steps rc L T = (log, Ok (rc ++ steps, L', T'))).
  { induction Hpos as [|c steps Hc _ IH]; intros k rc L T.
    - exists [], L, T. simpl. now rewrite app_nil_r.
    - destruct (trials_loop_returns payload k c (env k) (py_range t) [] [] Hc)
        as (L1 & T1 & E1).
      { intros j _. split; [intros i _; apply Hall|apply Hel]. }
      destruct (IH (S k) (rc ++ [c]) (L ++ [np_mean L1]) (T ++ [np_mean T1]))
        as (log & L' & T' & E').
      exists (level_calls payload k c (env k) (py_range t)
              ++ Printed c (np_mean L1) (np_mean T1) :: log), L', T'.
      cbn [levels_loop]. unfold run_level. rewrite E1. cbn. rewrite E'. cbn.
      now rewrite app_nil_r, <- app_assoc. }
  destruct (G 0%nat [] [] []) as (log & L' & T' & E).
  exists log, L', T'. exact E.
Qed.

(** The scenario of the design: levels 1, 2, 4, two trials each, a stub
    taking a tenth of a second. *)
Lemma stub_scenario :
  exists latencies throughputs,
    outcome_of stub_run = Ok ([1; 2; 4], latencies, throughputs) /\
    Forall2 feq latencies [Fin (1 # 10); Fin (1 # 10); Fin (1 # 10)] /\
    Forall2 feq throughputs [Fin 10; Fin 20; Fin 40].
Proof.
  eexists _, _. split; [reflexivity|].
  split; repeat constructor.
Qed.
(** ** The theorems at work on concrete runs *)

Lemma report_follows_steps_witness :
  stub_run
  = (log_of stub_run,
     Ok ([1; 2; 4],
         [Fin (20 # 200); Fin (8000 # 80000); Fin (320000000 # 3200000000)],
         [Fin (20 # 2); Fin (40 # 2); Fin (80 # 2)])) /\
  List.length [Fin (20 # 200); Fin (8000 # 80000); Fin (320000000 # 3200000000)]
  = List.length [1; 2; 4].
Proof.
  assert (E : stub_run
    = (log_of stub_run,
       Ok ([1; 2; 4],
           [Fin (20 # 200); Fin (8000 # 80000); Fin (320000000 # 3200000000)],
           [Fin (20 # 2); Fin (40 # 2); Fin (80 # 2)]))) by reflexivity.
  split; [exact E|].
  exact (proj1 (proj2 (report_follows_steps _ _ _ _ _ _ _ _ E))).
Defined.

Lemma calls_per_level_witness :
  stub_run = (log_of stub_run, outcome_of stub_run) /\
  0 <= 2 /\
  nth_error [1; 2; 4] 2 = Some 4 /\
  Z.of_nat (List.length (calls_of_level 2 (log_of stub_run))) = 4 * 2.
Proof.
  assert (E : stub_run
    = (log_of stub_run,
       Ok ([1; 2; 4],
           [Fin (20 # 200); Fin (8000 # 80000); Fin (320000000 # 3200000000)],
           [Fin (20 # 2); Fin (40 # 2); Fin (80 # 2)]))) by reflexivity.
  assert (Ht : 0 <= 2) by lia.
  assert (Hk : nth_error [1; 2; 4] 2 = Some 4) by reflexivity.
  split; [reflexivity|]. split; [exact Ht|]. split; [exact Hk|].
  exact (proj1 (calls_per_level _ _ _ _ _ _ _ _ E Ht Hk)).
Defined.

Lemma level_result_is_mean_of_trial_means_witness :
  1 <= 2 /\
  nth_error [1; 2; 4] 2 = Some 4 /\
  exists avg_latency avg_throughput,
    nth_error [Fin (20 # 200); Fin (8000 # 80000); Fin (320000000 # 3200000000)] 2
      = Some (Fin avg_latency) /\
    nth_error [Fin (20 # 2); Fin (40 # 2); Fin (80 # 2)] 2 = Some (Fin avg_throughput) /\
    (avg_latency == 1 # 10)%Q /\ (avg_throughput == inject_Z 4 / (1 # 10))%Q.
Proof.
  assert (E : stub_run
    = (log_of stub_run,
       Ok ([1; 2; 4],
           [Fin (20 # 200); Fin (8000 # 80000); Fin (320000000 # 3200000000)],
           [Fin (20 # 2); Fin (40 # 2); Fin (80 # 2)]))) by reflexivity.
  assert (Ht : 1 <= 2) by lia.
  assert (Hk : nth_error [1; 2; 4] 2 = Some 4) by reflexivity.
  split; [exact Ht|]. split; [exact Hk|].
  destruct (level_result_is_mean_of_trial_means _ _ _ _ _ _ _ _ _ _ E Ht Hk)
    as (_ & a & b & Ha & Hb & _ & _ & Hstub).
  exists a, b. split; [exact Ha|]. split; [exact Hb|].
  apply (Hstub (1 # 10)); intros; reflexivity.
Defined.


Lemma failed_predict_reaches_caller_witness :
  In (Predict 1 0 1 example_payload (Fails 503)) (log_of failing_run) /\
  exists err' k' j' i',
    outcome_of failing_run = Raise (PredictError err') /\
    In (Predict k' j' i' example_payload (Fails err')) (log_of failing_run).
Proof.
  assert (H : In (Predict 1 0 1 example_payload (Fails 503)) (log_of failing_run)).
  { vm_compute. tauto. }
  split; [exact H|].
  exact (failed_predict_reaches_caller _ _ _ _ _ _ _ _ _ H).
Defined.

Lemma first_failed_future_aborts_run_witness :
  In (Predict 1 0 1 example_payload (Fails 503)) (log_of failing_run) /\
  exists k c j e,
    nth_error [1; 4; 2] k = Some c /\
    first_failure (futures_in_completion_order c (failing_env k j)) = Some e /\
    outcome_of failing_run = Raise e.
Proof.
  assert (H : In (Predict 1 0 1 example_payload (Fails 503)) (log_of failing_run)).
  { vm_compute. tauto. }
  split; [exact H|].
  destruct (first_failed_future_aborts_run _ _ _ _ _ _ _ _ _ H)
    as (k & c & j & rows & pre & e & Hk & _ & _ & _ & _ & Hf & E).
  exists k, c, j, e. split; [exact Hk|]. split; [exact Hf|].
  unfold failing_run. now rewrite E.
Defined.

Lemma no_request_is_retried_witness :
  In (Predict 1 0 1 example_payload (Fails 503)) (log_of failing_run) /\
  In (Predict 1 0 1 example_payload (Fails 503)) (log_of failing_run) /\
  NoDup (labels (log_of failing_run)) /\
  example_payload = example_payload /\ Fails 503 = Fails 503.
Proof.
  assert (H : In (Predict 1 0 1 example_payload (Fails 503)) (log_of failing_run)).
  { vm_compute. tauto. }
  split; [exact H|]. split; [exact H|].
  split; [exact (proj1 (no_request_is_retried failing_env example_payload [1; 4; 2] 2))|].
  exact (proj2 (no_request_is_retried failing_env example_payload [1; 4; 2] 2)
           _ _ _ _ _ _ _ H H).
Defined.

Lemma configuration_is_not_validated_witness :
  0 <= 0 /\
  benchmark_predictor (stub_env (1 # 10)) PyNone [1; 0; 4] 0
  = ([Printed 1 NaN NaN; Printed 0 NaN NaN; Printed 4 NaN NaN],
     Ok ([1; 0; 4], [NaN; NaN; NaN], [NaN; NaN; NaN])) /\
  0 < 1 /\ 0 <= 0 /\
  levels_run PyNone 1 (stub_env (1 # 10)) 0 [1]
    [(Fin (1 # 10), Fin (inject_Z 1 / (1 # 10))%Q)]
    ([Predict 0 0 0 PyNone Responds]
       ++ [Printed 1 (Fin (1 # 10)) (Fin (inject_Z 1 / (1 # 10))%Q)]) /\
  benchmark_predictor (stub_env (1 # 10)) PyNone [1; 0; 4] 1
  = ([Predict 0 0 0 PyNone Responds]
       ++ [Printed 1 (Fin (1 # 10)) (Fin (inject_Z 1 / (1 # 10))%Q)],
     Raise ValueError).
Proof.
  assert (H0 : 0 <= 0) by lia.
  assert (H1 : 0 < 1) by lia.
  assert (R : levels_run PyNone 1 (stub_env (1 # 10)) 0 [1]
    [(Fin (1 # 10), Fin (inject_Z 1 / (1 # 10))%Q)]
    ([Predict 0 0 0 PyNone Responds]
       ++ [Printed 1 (Fin (1 # 10)) (Fin (inject_Z 1 / (1 # 10))%Q)])).
  { apply (levels_run_cons PyNone 1 (stub_env (1 # 10)) 0 1 []
             (Fin (1 # 10), Fin (inject_Z 1 / (1 # 10))%Q) []
             [Predict 0 0 0 PyNone Responds] []).
    - reflexivity.
    - apply levels_run_nil. }
  split; [exact H0|].
  split; [exact (proj1 (configuration_is_not_validated
                          (stub_env (1 # 10)) PyNone [1; 0; 4] 0) H0)|].
  split; [exact H1|]. split; [exact H0|]. split; [exact R|].
  exact (proj2 (configuration_is_not_validated (stub_env (1 # 10)) PyNone [1; 0; 4] 1)
           [1] 0 [4] _ _ H1 H0 eq_refl R).
Defined.

(** ** Where the code departs from the design *)

(** Against C5: with [iterations = 0] nothing is raised; a non-positive
    level is met only after the calls of the levels before it; [None] as
    payload is sent as it is. *)
Lemma configuration_errors_not_raised_up_front :
  ~ rejected_before_any_call (stub_env (1 # 10)) example_payload [1; 2; 4] 0 /\
  benchmark_predictor (stub_env (1 # 10)) example_payload [1; 2; 4] 0
  = ([Printed 1 NaN NaN; Printed 2 NaN NaN; Printed 4 NaN NaN],
     Ok ([1; 2; 4], [NaN; NaN; NaN], [NaN; NaN; NaN])) /\
  ~ rejected_before_any_call (stub_env (1 # 10)) example_payload [1; 0; 4] 1 /\
  ~ rejected_before_any_call (stub_env (1 # 10)) PyNone [1] 1.
Proof.
  repeat split.
  - intros (e & H). discriminate.
  - intros (e & H). discriminate.
  - intros (e & H). discriminate.
Qed.

(** * Further properties of the notebooks' code *)

(** ** What the harness prints and how it stops *)

Lemma printed_lines_app l1 l2 :
  printed_lines (l1 ++ l2) = printed_lines l1 ++ printed_lines l2.
Proof. apply flat_map_app. Qed.

Lemma printed_lines_level_calls payload k c tenv js :
  printed_lines (level_calls payload k c tenv js) = [].
Proof.
  unfold level_calls. induction js as [|j js IH]; simpl; [reflexivity|].
  rewrite printed_lines_app, IH, app_nil_r. unfold trial_calls.
  induction (seq 0 (Z.to_nat c)); simpl; auto.
Qed.

Lemma levels_run_printed payload t env k steps rows log :
  levels_run payload t env k steps rows log ->
  printed_lines log
  = map (fun cr => (fst cr, fst (snd cr), snd (snd cr))) (combine steps rows).
Proof.
  induction 1 as [|k c steps row rows lg log Hl _ IH]; [reflexivity|].
  rewrite printed_lines_app, (run_level_log_ok _ _ _ _ _ _ _ Hl),
    printed_lines_level_calls. simpl. now rewrite IH.
Qed.

(** X1.  A run that returns has printed exactly one line per level, in
    the order of [steps], and the numbers on the [k]-th line are the
    [k]-th entries of the three lists it returns. *)
Theorem printed_lines_are_the_report (env : Env) (payload : PyValue)
    (steps : list Z) (t : Z) (log : list event)
    (request_counts : list Z) (latencies throughputs : list pyfloat) :
  benchmark_predictor env payload steps t
    = (log, Ok (request_counts, latencies, throughputs)) ->
  printed_lines log
  = map (fun r => (fst r, fst (snd r), snd (snd r)))
        (combine request_counts (combine latencies throughputs)) /\
  List.length (printed_lines log) = List.length steps.
Proof.
  intros H. apply benchmark_ok_inv in H. destruct H as (rows & Hrun & -> & -> & ->).
  rewrite (levels_run_printed _ _ _ _ _ _ _ Hrun).
  pose proof (levels_run_length _ _ _ _ _ _ _ Hrun) as Hlen.
  split.
  - clear Hrun. revert rows Hlen. induction steps as [|c steps IH]; intros rows Hlen.
    + reflexivity.
    + destruct rows as [|[a b] rows]; [discriminate|]. simpl.
      f_equal. apply IH. simpl in Hlen. lia.
  - rewrite length_map, length_combine. lia.
Qed.

(** X2.  A run stopped by the division [num_requests / total_time] (the
    [ZeroDivisionError] of the harness's own statement, as opposed to an
    exception coming out of [predictor.predict], whatever its class) made
    only calls that were answered: it stopped at a trial of a positive
    level whose requests all returned but whose measured elapsed time was
    zero, after making all the calls of that trial. *)
Theorem zero_elapsed_time_stops_run (env : Env) (payload : PyValue)
    (steps : list Z) (t : Z) (log : list event) :
  benchmark_predictor env payload steps t = (log, Raise ZeroDivisionError) ->
  clean log /\
  exists k c j rows pre,
    nth_error steps k = Some c /\ (j < Z.to_nat t)%nat /\ 0 < c /\
    levels_run payload t env 0 (firstn k steps) rows pre /\
    (trial_elapsed (env k j) == 0)%Q /\
    (forall i, (i < Z.to_nat c)%nat -> answer (served (env k j) i) = Responds) /\
    log = pre ++ level_calls payload k c (env k) (seq 0 (S j)).
Proof.
  intros H. apply benchmark_raise_inv in H.
  destruct H as (k & c & j & rows & pre & lg & Hk & Hj & Hrun & Hclean & Hr & ->).
  apply run_trial_raise_inv in Hr.
  destruct Hr as [(_ & _ & Hr)|(Hc & -> & Ho)]; [discriminate|].
  apply trial_outcome_raise_inv in Ho. destruct Ho as [Ho|(_ & Hel & Hall)].
  { apply first_failure_is_predict_error in Ho.
    destruct Ho as (i & err & _ & _ & Ho). discriminate. }
  split.
  - apply clean_app; [eapply levels_run_clean; eauto|].
    apply clean_app; [assumption|now apply trial_calls_clean].
  - exists k, c, j, rows, pre. rewrite level_calls_snoc. repeat split; auto.
Qed.

Lemma trial_calls_nonpositive payload k j c te :
  c <= 0 -> trial_calls payload k j c te = [].
Proof. intros Hc. unfold trial_calls. now replace (Z.to_nat c) with 0%nat by lia. Qed.

Lemma level_calls_nonpositive payload k c tenv js :
  c <= 0 -> level_calls payload k c tenv js = [].
Proof.
  intros Hc. unfold level_calls. induction js as [|j js IH]; simpl; [reflexivity|].
  now rewrite IH, trial_calls_nonpositive.
Qed.

Lemma calls_of_level_none k log :
  (forall j i, ~ In (k, j, i) (labels log)) -> calls_of_level k log = [].
Proof.
  induction log as [|ev log IH]; intros H; [reflexivity|].
  assert (Hlog : forall j i, ~ In (k, j, i) (labels log)).
  { intros j i Hin. apply (H j i). unfold labels. cbn [flat_map].
    apply in_or_app. now right. }
  destruct ev as [k' j' i' d r|c a b]; simpl.
  - destruct (Nat.eqb k' k) eqn:E; [|now apply IH].
    apply Nat.eqb_eq in E. subst k'. exfalso. apply (H j' i'). now left.
  - now apply IH.
Qed.

(** X3.  A run stopped by the thread pool's constructor (the
    [ValueError] of [ThreadPoolExecutor(max_workers=num_requests)], as
    opposed to an exception coming out of [predictor.predict], whatever
    its class) was asked for at least one iteration and stopped on
    reaching a level that is zero or negative: the levels before it had
    completed, every call made was answered, and no call was made for the
    level itself.  Hence over positive levels the constructor never stops
    a run. *)
Theorem pool_rejection_means_nonpositive_level (env : Env) (payload : PyValue)
    (steps : list Z) (t : Z) (log : list event) :
  benchmark_predictor env payload steps t = (log, Raise ValueError) ->
  0 < t /\ clean log /\ ~ Forall (fun c => 0 < c) steps /\
  exists k c rows,
    nth_error steps k = Some c /\ c <= 0 /\
    levels_run payload t env 0 (firstn k steps) rows log /\
    calls_of_level k log = [].
Proof.
  intros H. apply benchmark_raise_inv in H.
  destruct H as (k & c & j & rows & pre & lg & Hk & Hj & Hrun & Hclean & Hr & ->).
  apply run_trial_raise_inv in Hr.
  destruct Hr as [(Hc & -> & _)|(Hc & -> & Ho)].
  - rewrite (level_calls_nonpositive _ _ _ _ _ Hc), !app_nil_r.
    split; [lia|]. split; [eapply levels_run_clean; eauto|]. split.
    + intros HF. rewrite Forall_forall in HF.
      apply nth_error_In in Hk. apply HF in Hk. lia.
    + exists k, c, rows. repeat split; auto.
      apply calls_of_level_none. intros j' i' Hin.
      apply (labels_levels_run_in _ _ _ _ _ _ _ _ _ _ Hrun) in Hin.
      pose proof (firstn_le_length k steps). lia.
  - exfalso. apply trial_outcome_raise_inv in Ho. destruct Ho as [Ho|(Ho & _)].
    + apply first_failure_is_predict_error in Ho.
      destruct Ho as (i & err & _ & _ & Ho). discriminate.
    + discriminate.
Qed.

Lemma predict_calls_app l1 l2 :
  predict_calls (l1 ++ l2) = predict_calls l1 ++ predict_calls l2.
Proof. apply filter_app. Qed.

Lemma predict_calls_level_calls payload k c tenv js :
  predict_calls (level_calls payload k c tenv js) = level_calls payload k c tenv js.
Proof.
  unfold level_calls. induction js as [|j js IH]; simpl; [reflexivity|].
  rewrite predict_calls_app, IH. f_equal. unfold trial_calls.
  induction (seq 0 (Z.to_nat c)) as [|i l IHl]; simpl; [reflexivity|now f_equal].
Qed.

Lemma levels_run_total_calls payload t env k steps rows log :
  levels_run payload t env k steps rows log -> 0 <= t ->
  Z.of_nat (List.length (predict_calls log)) = t * Zsum steps.
Proof.
  intros H Ht. induction H as [|k c steps row rows lg log Hl _ IH]; [simpl; lia|].
  rewrite predict_calls_app, length_app. cbn [predict_calls filter is_predict].
  fold (predict_calls log). rewrite Nat2Z.inj_add, IH.
  pose proof Hl as Hlog. apply run_level_log_ok in Hlog. subst lg.
  rewrite predict_calls_level_calls, level_calls_length, py_range_length.
  destruct row as [al ath]. apply run_level_ok_inv in Hl. destruct Hl as (_ & Hc & _).
  cbn [Zsum fold_right]. fold (Zsum steps).
  destruct (Z.eq_dec t 0) as [->|Hne]; [simpl; lia|].
  assert (0 < c) by (apply Hc; lia).
  rewrite Nat2Z.inj_mul, !Z2Nat.id by lia. lia.
Qed.

(** X4.  A run that returns, with [iterations = t >= 0], has called the
    predictor [t] times the sum of the levels, every time with the
    payload it was given. *)
Theorem total_calls_of_a_run (env : Env) (payload : PyValue)
    (steps : list Z) (t : Z) (log : list event) (report : Report) :
  benchmark_predictor env payload steps t = (log, Ok report) ->
  0 <= t ->
  Z.of_nat (List.length (predict_calls log)) = t * Zsum steps /\
  forall ev, In ev (predict_calls log) -> exists k j i r, ev = Predict k j i payload r.
Proof.
  destruct report as [[rc lats] thrs]. intros H Ht.
  apply benchmark_ok_inv in H. destruct H as (rows & Hrun & _).
  split; [eapply levels_run_total_calls; eauto|].
  intros ev Hin. apply filter_In in Hin. destruct Hin as (Hin & Hp).
  destruct ev as [k j i d r|c a b]; [|discriminate].
  assert (Hc : In (Predict k j i d r) (calls_of_level k log)).
  { apply filter_In. split; [assumption|apply Nat.eqb_refl]. }
  assert (Hk : (k < List.length steps)%nat).
  { apply labels_in in Hin.
    apply (labels_levels_run_in _ _ _ _ _ _ _ _ _ _ Hrun) in Hin. lia. }
  destruct (nth_error steps k) as [c|] eqn:E; [|apply nth_error_None in E; lia].
  pose proof (levels_run_calls _ _ _ _ _ _ _ k c Hrun E) as Ec. simpl in Ec.
  rewrite Ec in Hc. apply level_calls_in in Hc.
  destruct Hc as (j' & i' & _ & _ & Hev). inversion Hev; subst. eauto.
Qed.
(** ** Bounds under a sane clock *)

Lemma Qsum_bounds (l : list Q) (lo hi : Q) :
  (forall x, In x l -> (lo <= x)%Q /\ (x <= hi)%Q) ->
  (inject_Z (Z.of_nat (List.length l)) * lo <= Qsum l)%Q /\
  (Qsum l <= inject_Z (Z.of_nat (List.length l)) * hi)%Q.
Proof.
  induction l as [|x l IH]; intros H.
  - simpl. split; apply Qle_lteq; right; ring.
  - destruct (H x (or_introl eq_refl)) as (Hlo & Hhi).
    destruct IH as (IH1 & IH2); [intros y Hy; apply H; now right|].
    cbn [Qsum fold_right List.length]. fold (Qsum l).
    rewrite Nat2Z.inj_succ. unfold Z.succ. rewrite inject_Z_plus. split.
    + setoid_replace ((inject_Z (Z.of_nat (List.length l)) + inject_Z 1) * lo)%Q
        with (lo + inject_Z (Z.of_nat (List.length l)) * lo)%Q by ring.
      now apply Qplus_le_compat.
    + setoid_replace ((inject_Z (Z.of_nat (List.length l)) + inject_Z 1) * hi)%Q
        with (hi + inject_Z (Z.of_nat (List.length l)) * hi)%Q by ring.
      now apply Qplus_le_compat.
Qed.

Lemma inject_Z_length_pos {A} (l : list A) :
  l <> [] -> (0 < inject_Z (Z.of_nat (List.length l)))%Q.
Proof.
  intros Hl. destruct l as [|x l]; [congruence|].
  unfold Qlt. simpl. lia.
Qed.

Lemma arith_mean_bounds (l : list Q) (lo hi : Q) :
  l <> [] ->
  (forall x, In x l -> (lo <= x)%Q /\ (x <= hi)%Q) ->
  (lo <= arith_mean l)%Q /\ (arith_mean l <= hi)%Q.
Proof.
  intros Hl H. destruct (Qsum_bounds l lo hi H) as (H1 & H2).
  pose proof (inject_Z_length_pos l Hl) as Hn. unfold arith_mean. split.
  - apply Qle_shift_div_l; [assumption|]. now rewrite Qmult_comm.
  - apply Qle_shift_div_r; [assumption|]. now rewrite Qmult_comm.
Qed.

Lemma arith_mean_lower (l : list Q) (lo : Q) :
  l <> [] -> (forall x, In x l -> (lo <= x)%Q) -> (lo <= arith_mean l)%Q.
Proof.
  intros Hl H. pose proof (inject_Z_length_pos l Hl) as Hn. unfold arith_mean.
  apply Qle_shift_div_l; [assumption|]. rewrite Qmult_comm.
  clear Hl Hn. induction l as [|x l IH].
  - simpl. apply Qle_lteq. right. ring.
  - cbn [Qsum fold_right List.length]. fold (Qsum l).
    rewrite Nat2Z.inj_succ. unfold Z.succ. rewrite inject_Z_plus.
    setoid_replace ((inject_Z (Z.of_nat (List.length l)) + inject_Z 1) * lo)%Q
      with (lo + inject_Z (Z.of_nat (List.length l)) * lo)%Q by ring.
    apply Qplus_le_compat; [apply H; now left|].
    apply IH. intros y Hy. apply H. now right.
Qed.

Lemma sane_request_latency c te i :
  clock_is_sane c te -> (i < Z.to_nat c)%nat ->
  (0 <= request_latency te i)%Q /\ (request_latency te i <= trial_elapsed te)%Q.
Proof.
  intros Hs Hi. destruct (Hs i Hi) as (H1 & H2 & H3).
  unfold request_latency, trial_elapsed. split.
  - apply (proj1 (Qle_minus_iff _ _)) in H2. exact H2.
  - apply Qplus_le_compat; [assumption|]. now apply Qopp_le_compat.
Qed.

Lemma sane_trial_mean c te :
  0 < c -> clock_is_sane c te ->
  (0 <= arith_mean (map (request_latency te) (seq 0 (Z.to_nat c))))%Q /\
  (arith_mean (map (request_latency te) (seq 0 (Z.to_nat c))) <= trial_elapsed te)%Q.
Proof.
  intros Hc Hs. apply arith_mean_bounds.
  - intros E. apply map_eq_nil in E. now apply seq_nonempty in E.
  - intros x Hx. apply in_map_iff in Hx. destruct Hx as (i & <- & Hi).
    apply in_seq in Hi. apply (sane_request_latency c); [assumption|lia].
Qed.

Lemma sane_elapsed_pos c te :
  0 < c -> clock_is_sane c te -> ~ (trial_elapsed te == 0)%Q ->
  (0 < trial_elapsed te)%Q.
Proof.
  intros Hc Hs Hne. assert (H0 : (0 < Z.to_nat c)%nat) by lia.
  destruct (sane_request_latency c te 0%nat Hs H0) as (H1 & H2).
  apply Qle_lteq in H1. apply Qle_lteq in H2.
  destruct (Qlt_le_dec 0 (trial_elapsed te)) as [H|H]; [assumption|].
  exfalso. apply Hne. apply Qle_antisym; [assumption|].
  eapply Qle_trans; [apply Qle_lteq; exact H1|apply Qle_lteq; exact H2].
Qed.

(** X5.  Under a clock that does not run backwards, a trial that returns
    reports a mean latency between zero and its elapsed time and a
    positive throughput, and their product is at most the number of
    concurrent requests. *)
Theorem trial_latency_times_throughput_bounded (payload : PyValue) (k j : nat)
    (c : Z) (te : trial_env) (lg : list event) (latency throughput : pyfloat) :
  run_trial payload k j c te = (lg, Ok (latency, throughput)) ->
  clock_is_sane c te ->
  exists m x,
    latency = Fin m /\ throughput = Fin x /\
    (0 <= m)%Q /\ (m <= trial_elapsed te)%Q /\ (0 < x)%Q /\
    (m * x <= inject_Z c)%Q.
Proof.
  intros H Hs. apply run_trial_ok_inv in H. destruct H as (Hc & _ & Ho).
  pose proof Ho as Ho'. apply trial_outcome_ok_inv in Ho'. destruct Ho' as (_ & Hne & _).
  destruct (trial_outcome_means _ _ _ _ Hc Ho) as (m & -> & Hm & ->).
  destruct (sane_trial_mean c te Hc Hs) as (H0 & H1).
  pose proof (sane_elapsed_pos c te Hc Hs Hne) as Hel.
  assert (Hcq : (0 < inject_Z c)%Q) by (unfold Qlt; simpl; lia).
  exists m, (inject_Z c / trial_elapsed te)%Q.
  split; [reflexivity|]. split; [reflexivity|].
  split; [now rewrite Hm|]. split; [now rewrite Hm|]. split.
  - apply Qlt_shift_div_l; [assumption|]. now rewrite Qmult_0_l.
  - setoid_replace (m * (inject_Z c / trial_elapsed te))%Q
      with ((m * inject_Z c) / trial_elapsed te)%Q by (field; exact Hne).
    apply Qle_shift_div_r; [assumption|].
    rewrite (Qmult_comm (inject_Z c)).
    apply Qmult_le_compat_r; [now rewrite Hm|now apply Qlt_le_weak].
Qed.

Lemma level_entry_means env payload steps t log rc lats thrs k c :
  benchmark_predictor env payload steps t = (log, Ok (rc, lats, thrs)) ->
  1 <= t ->
  nth_error steps k = Some c ->
  0 < c /\
  (forall j, (j < Z.to_nat t)%nat -> ~ (trial_elapsed (env k j) == 0)%Q) /\
  exists a b,
    nth_error lats k = Some (Fin a) /\ nth_error thrs k = Some (Fin b) /\
    (a == arith_mean
            (map (fun j => arith_mean (map (request_latency (env k j)) (seq 0 (Z.to_nat c))))
                 (py_range t)))%Q /\
    (b == arith_mean (map (fun j => inject_Z c / trial_elapsed (env k j)) (py_range t)))%Q.
Proof.
  intros H Ht Hk.
  apply benchmark_ok_inv in H. destruct H as (rows & Hrun & -> & -> & ->).
  destruct (levels_run_nth _ _ _ _ _ _ _ k c Hrun Hk) as ([al ath] & lg & Hrow & Hl).
  simpl in Hl. apply run_level_ok_inv in Hl.
  destruct Hl as (_ & Hc & vals & HF & -> & ->).
  assert (Hcpos : 0 < c) by (apply Hc; lia).
  assert (Hjs : py_range t <> []).
  { unfold py_range. destruct (Z.to_nat t) eqn:E; [lia|discriminate]. }
  split; [assumption|]. split.
  - intros j Hj. apply py_range_in in Hj.
    destruct (Forall2_ok_nth _ _ _ j HF Hj) as ([lat thr] & Ho).
    apply trial_outcome_ok_inv in Ho. tauto.
  - destruct (trial_values_means c (env k) _ _ Hcpos HF) as (ql & E1 & HQ & E2).
    assert (Hql : ql <> []).
    { intros ->. apply Forall2_length in HQ. rewrite length_map in HQ.
      destruct (py_range t); [congruence|discriminate]. }
    assert (Hqt : map (fun j => inject_Z c / trial_elapsed (env k j))%Q (py_range t) <> []).
    { intros E. apply map_eq_nil in E. contradiction. }
    destruct (np_mean_Fin ql Hql) as (ml & Eml & Hml).
    destruct (np_mean_Fin _ Hqt) as (mt & Emt & Hmt).
    exists ml, mt. split; [|split; [|split]].
    + now rewrite nth_error_map, Hrow; simpl; rewrite E1, Eml.
    + now rewrite nth_error_map, Hrow; simpl; rewrite E2, Emt.
    + rewrite Hml. now apply arith_mean_compat.
    + exact Hmt.
Qed.

(** X6.  In a run that returns, with at least one iteration and a clock
    that does not run backwards, if every trial of a level lasted at most
    [T] then the level's reported latency lies between zero and [T] and
    its reported throughput is at least [c / T], hence positive. *)
Theorem reported_level_is_bounded (env : Env) (payload : PyValue)
    (steps : list Z) (t : Z) (log : list event)
    (request_counts : list Z) (latencies throughputs : list pyfloat)
    (k : nat) (c : Z) (T : Q) :
  benchmark_predictor env payload steps t
    = (log, Ok (request_counts, latencies, throughputs)) ->
  1 <= t ->
  nth_error steps k = Some c ->
  (forall j, (j < Z.to_nat t)%nat -> clock_is_sane c (env k j)) ->
  (forall j, (j < Z.to_nat t)%nat -> (trial_elapsed (env k j) <= T)%Q) ->
  exists a b,
    nth_error latencies k = Some (Fin a) /\ nth_error throughputs k = Some (Fin b) /\
    (0 <= a)%Q /\ (a <= T)%Q /\ (inject_Z c / T <= b)%Q /\ (0 < b)%Q.
Proof.
  intros H Ht Hk Hs HT.
  destruct (level_entry_means _ _ _ _ _ _ _ _ _ _ H Ht Hk) as (Hc & Hne & a & b & Ea & Eb & Ha & Hb).
  assert (Hjs : py_range t <> []).
  { unfold py_range. destruct (Z.to_nat t) eqn:E; [lia|discriminate]. }
  assert (Hcq : (0 < inject_Z c)%Q) by (unfold Qlt; simpl; lia).
  assert (Hel : forall j, (j < Z.to_nat t)%nat -> (0 < trial_elapsed (env k j))%Q).
  { intros j Hj. apply (sane_elapsed_pos c); auto. }
  assert (HTpos : (0 < T)%Q).
  { assert (H0 : (0 < Z.to_nat t)%nat) by lia.
    eapply Qlt_le_trans; [apply (Hel 0%nat H0)|apply (HT 0%nat H0)]. }
  assert (Hthr : forall x,
            In x (map (fun j => inject_Z c / trial_elapsed (env k j))%Q (py_range t)) ->
            (inject_Z c / T <= x)%Q).
  { intros x Hx.
    apply in_map_iff in Hx. destruct Hx as (j & <- & Hj). apply py_range_in in Hj.
    apply Qle_shift_div_l; [now apply Hel|].
    setoid_replace (inject_Z c / T * trial_elapsed (env k j))%Q
      with ((inject_Z c * trial_elapsed (env k j)) / T)%Q
      by (field; intros E; rewrite E in HTpos; discriminate).
    apply Qle_shift_div_r; [assumption|].
    apply Qmult_le_l; [assumption|now apply HT]. }
  exists a, b. split; [exact Ea|]. split; [exact Eb|].
  assert (Hlat : (0 <= a)%Q /\ (a <= T)%Q).
  { rewrite Ha. apply arith_mean_bounds.
    - intros E. apply map_eq_nil in E. contradiction.
    - intros x Hx. apply in_map_iff in Hx. destruct Hx as (j & <- & Hj).
      apply py_range_in in Hj.
      destruct (sane_trial_mean c (env k j) Hc (Hs j Hj)) as (H0 & H1).
      split; [assumption|]. eapply Qle_trans; [exact H1|now apply HT]. }
  assert (Hb1 : (inject_Z c / T <= b)%Q).
  { rewrite Hb. apply arith_mean_lower; [|exact Hthr].
    intros E. apply map_eq_nil in E. contradiction. }
  split; [apply Hlat|]. split; [apply Hlat|]. split; [exact Hb1|].
  eapply Qlt_le_trans; [|exact Hb1].
  apply Qlt_shift_div_l; [assumption|]. now rewrite Qmult_0_l.
Qed.
(** ** Runs over concatenated levels *)

Lemma outcome_of_bind {A B} (m : M A) (f : A -> M B) :
  outcome_of (bind m f)
  = match outcome_of m with
    | Ok a => outcome_of (f a)
    | Raise e => Raise e
    end.
Proof.
  destruct m as [l [a|e]]; simpl; [|reflexivity]. now destruct (f a).
Qed.

Lemma run_trial_outcome_label payload payload' k k' j j' c te :
  outcome_of (run_trial payload k j c te) = outcome_of (run_trial payload' k' j' c te).
Proof. rewrite !run_trial_eq. now destruct (c <=? 0). Qed.

Lemma trials_loop_outcome_label payload k k' c tenv js L T :
  outcome_of (trials_loop payload k c tenv js L T)
  = outcome_of (trials_loop payload k' c tenv js L T).
Proof.
  revert L T. induction js as [|j js IH]; intros L T; [reflexivity|].
  cbn [trials_loop]. rewrite !outcome_of_bind.
  rewrite (run_trial_outcome_label payload payload k k' j j c (tenv j)).
  destruct (outcome_of (run_trial payload k' j c (tenv j))) as [[lat thr]|e];
    [apply IH|reflexivity].
Qed.

Lemma run_level_outcome_shift payload t env n k c :
  outcome_of (run_level payload t env (n + k) c)
  = outcome_of (run_level payload t (shift_env n env) k c).
Proof.
  unfold run_level. rewrite !outcome_of_bind.
  change (shift_env n env k) with (env (n + k)%nat).
  rewrite (trials_loop_outcome_label payload (n + k) k c (env (n + k)%nat)).
  reflexivity.
Qed.

Lemma levels_loop_outcome_shift payload t env n k steps rc L T :
  outcome_of (levels_loop payload t env (n + k) steps rc L T)
  = outcome_of (levels_loop payload t (shift_env n env) k steps rc L T).
Proof.
  revert k rc L T. induction steps as [|c steps IH]; intros k rc L T; [reflexivity|].
  cbn [levels_loop]. rewrite !outcome_of_bind, run_level_outcome_shift.
  destruct (outcome_of (run_level payload t (shift_env n env) k c)) as [[al ath]|e];
    [|reflexivity].
  rewrite !outcome_of_bind. cbn. rewrite <- IH. now rewrite Nat.add_succ_r.
Qed.

Lemma levels_loop_outcome_acc payload t env k steps rc L T :
  outcome_of (levels_loop payload t env k steps rc L T)
  = prepend_report (rc, L, T) (outcome_of (levels_loop payload t env k steps [] [] [])).
Proof.
  revert k rc L T. induction steps as [|c steps IH]; intros k rc L T.
  - simpl. now rewrite !app_nil_r.
  - cbn [levels_loop]. rewrite !outcome_of_bind.
    destruct (outcome_of (run_level payload t env k c)) as [[al ath]|e]; [|reflexivity].
    rewrite !outcome_of_bind. cbn.
    rewrite IH. rewrite (IH (S k) [c] [al] [ath]).
    destruct (outcome_of (levels_loop payload t env (S k) steps [] [] []))
      as [[[rc2 l2] t2]|e]; simpl; [|reflexivity].
    now rewrite <- !app_assoc.
Qed.

(** X7.  Levels do not influence one another: if the run over [steps1]
    returns, the run over [steps1 ++ steps2] returns that report followed
    by the report of the run over [steps2] (in the environment that
    follows), or raises what that run raises. *)
Theorem run_over_concatenated_steps (env : Env) (payload : PyValue)
    (steps1 steps2 : list Z) (t : Z) (log1 : list event) (report1 : Report) :
  benchmark_predictor env payload steps1 t = (log1, Ok report1) ->
  outcome_of (benchmark_predictor env payload (steps1 ++ steps2) t)
  = prepend_report report1
      (outcome_of (benchmark_predictor (shift_env (List.length steps1) env)
                     payload steps2 t)).
Proof.
  destruct report1 as [[rc1 l1] t1]. intros H.
  apply benchmark_ok_inv in H. destruct H as (rows & Hrun & -> & -> & ->).
  unfold benchmark_predictor.
  rewrite (levels_loop_app _ _ _ _ _ _ _ steps2 [] [] [] Hrun). cbn [outcome_of snd].
  rewrite levels_loop_outcome_acc.
  replace (0 + List.length steps1)%nat with (List.length steps1 + 0)%nat by lia.
  now rewrite levels_loop_outcome_shift.
Qed.

Lemma levels_loop_raise_app payload t env k steps1 steps2 rc L T log e :
  levels_loop payload t env k steps1 rc L T = (log, Raise e) ->
  levels_loop payload t env k (steps1 ++ steps2) rc L T = (log, Raise e).
Proof.
  revert k rc L T log. induction steps1 as [|c steps1 IH]; intros k rc L T log H.
  - discriminate.
  - cbn [app levels_loop] in *.
    destruct (run_level payload t env k c) as [lg [[al ath]|e']]; cbn in *.
    + destruct (levels_loop payload t env (S k) steps1 (rc ++ [c]) (L ++ [al]) (T ++ [ath]))
        as [l4 r] eqn:E.
      inversion H; subst. now rewrite (IH _ _ _ _ _ E).
    + exact H.
Qed.

(** X8.  A run that raises is not changed by levels added after the
    ones it was given: same log, same exception. *)
Theorem aborted_run_ignores_later_steps (env : Env) (payload : PyValue)
    (steps1 steps2 : list Z) (t : Z) (log : list event) (e : exn) :
  benchmark_predictor env payload steps1 t = (log, Raise e) ->
  benchmark_predictor env payload (steps1 ++ steps2) t = (log, Raise e).
Proof. apply levels_loop_raise_app. Qed.
(** ** The levels of the benchmark cell *)

Lemma range_len_bound (start stop step : Z) (i : nat) :
  0 < step -> (i < Z.to_nat (range_len start stop step))%nat ->
  start + Z.of_nat i * step < stop.
Proof.
  intros Hs Hi. unfold range_len in Hi.
  replace (0 <? step) with true in Hi by (symmetry; apply Z.ltb_lt; lia).
  destruct (start <? stop) eqn:E; [|simpl in Hi; lia].
  apply Z.ltb_lt in E.
  assert (Hq : 0 <= (stop - start - 1) / step) by (apply Z.div_pos; lia).
  assert (Hi' : Z.of_nat i <= (stop - start - 1) / step) by lia.
  pose proof (Z.mul_div_le (stop - start - 1) step Hs) as Hm.
  nia.
Qed.

Lemma pow2_nonneg (x : Z) : 0 <= x -> pow2 x = NInt (2 ^ x).
Proof.
  intros Hx. unfold pow2. now replace (x <? 0) with false by (symmetry; apply Z.ltb_ge; lia).
Qed.

Lemma StronglySorted_map_seq (g : nat -> Z) (a n : nat) :
  (forall i j, (i < j)%nat -> g i < g j) ->
  StronglySorted Z.lt (map g (seq a n)).
Proof.
  intros Hg. revert a. induction n as [|n IH]; intros a; simpl; constructor.
  - apply IH.
  - apply Forall_forall. intros x Hx. apply in_map_iff in Hx.
    destruct Hx as (j & <- & Hj). apply in_seq in Hj. apply Hg. lia.
Qed.

Lemma benchmark_steps_ints (min_requests max_requests step_size : Z) :
  0 <= min_requests -> 0 < step_size ->
  benchmark_steps min_requests max_requests step_size
  = Ok (map NInt
          (map (fun i => 2 ^ (min_requests + Z.of_nat i * step_size))
               (seq 0 (Z.to_nat (range_len min_requests max_requests step_size))))).
Proof.
  intros Hmin Hstep. unfold benchmark_steps, py_range3.
  replace (step_size =? 0) with false by (symmetry; apply Z.eqb_neq; lia).
  f_equal. rewrite !map_map. apply map_ext. intros i. apply pow2_nonneg. nia.
Qed.

(** X10.  With [min_requests >= 0] and [step_size > 0] the levels of the
    benchmark cell are ints: the powers of two with exponents
    [min_requests], [min_requests + step_size], ... below [max_requests].
    They are at least 1, below [2 ** max_requests], and strictly
    increasing. *)
Theorem benchmark_steps_are_increasing_powers (min_requests max_requests step_size : Z) :
  0 <= min_requests -> 0 < step_size ->
  exists steps,
    benchmark_steps min_requests max_requests step_size = Ok (map NInt steps) /\
    steps = map (fun i => 2 ^ (min_requests + Z.of_nat i * step_size))
                (seq 0 (Z.to_nat (range_len min_requests max_requests step_size))) /\
    Forall (fun c => 1 <= c /\ c < 2 ^ max_requests) steps /\
    StronglySorted Z.lt steps.
Proof.
  intros Hmin Hstep.
  exists (map (fun i => 2 ^ (min_requests + Z.of_nat i * step_size))
              (seq 0 (Z.to_nat (range_len min_requests max_requests step_size)))).
  split; [|split; [reflexivity|split]].
  - now apply benchmark_steps_ints.
  - apply Forall_forall. intros c Hc. apply in_map_iff in Hc.
    destruct Hc as (i & <- & Hi). apply in_seq in Hi.
    assert (Hb : min_requests + Z.of_nat i * step_size < max_requests).
    { apply range_len_bound; lia. }
    split.
    + assert (0 < 2 ^ (min_requests + Z.of_nat i * step_size)); [|lia].
      apply Z.pow_pos_nonneg; nia.
    + apply Z.pow_lt_mono_r; nia.
  - apply StronglySorted_map_seq. intros i j Hij.
    apply Z.pow_lt_mono_r; nia.
Qed.

Lemma Zsum_powers (a : Z) (n : nat) :
  0 <= a ->
  Zsum (map (fun i => 2 ^ (a + Z.of_nat i * 1)) (seq 0 n)) = 2 ^ (a + Z.of_nat n) - 2 ^ a.
Proof.
  intros Ha. induction n as [|n IH].
  - simpl. rewrite Z.add_0_r. lia.
  - rewrite seq_S, map_app. simpl.
    assert (E : forall l x, Zsum (l ++ [x]) = Zsum l + x).
    { induction l as [|y l IHl]; intros x; simpl; [lia|]. rewrite IHl. lia. }
    rewrite E, IH.
    replace (a + Z.of_nat n * 1) with (a + Z.of_nat n) by lia.
    replace (a + Z.pos (Pos.of_succ_nat n)) with (Z.succ (a + Z.of_nat n)) by lia.
    rewrite Z.pow_succ_r by lia. lia.
Qed.

Lemma map_NInt_inj (l l' : list Z) : map NInt l = map NInt l' -> l = l'.
Proof.
  revert l'. induction l as [|x l IH]; intros [|y l'] H; try discriminate; [reflexivity|].
  inversion H. f_equal. now apply IH.
Qed.

(** X11.  With [step_size = 1] and [0 <= min_requests <= max_requests]
    the cell tests [max_requests - min_requests] levels, and a benchmark
    over them that returns has called the predictor
    [iterations * (2 ** max_requests - 2 ** min_requests)] times. *)
Theorem calls_of_the_benchmark_cell (env : Env) (payload : PyValue)
    (min_requests max_requests iterations : Z) (steps : list Z)
    (log : list event) (report : Report) :
  0 <= min_requests -> min_requests <= max_requests -> 0 <= iterations ->
  benchmark_steps min_requests max_requests 1 = Ok (map NInt steps) ->
  benchmark_predictor env payload steps iterations = (log, Ok report) ->
  Z.of_nat (List.length steps) = max_requests - min_requests /\
  Z.of_nat (List.length (predict_calls log))
  = iterations * (2 ^ max_requests - 2 ^ min_requests).
Proof.
  intros Hmin Hmax Ht Hsteps Hrun.
  rewrite (benchmark_steps_ints min_requests max_requests 1 Hmin) in Hsteps by lia.
  inversion Hsteps as [Hm]. apply map_NInt_inj in Hm. subst steps.
  assert (Hlen : Z.to_nat (range_len min_requests max_requests 1)
                 = Z.to_nat (max_requests - min_requests)).
  { unfold range_len. simpl. destruct (min_requests <? max_requests) eqn:El.
    - apply Z.ltb_lt in El. rewrite Z.div_1_r. lia.
    - apply Z.ltb_ge in El. simpl. lia. }
  destruct report as [[rc lats] thrs].
  apply benchmark_ok_inv in Hrun. destruct Hrun as (rows & Hrun & _).
  rewrite (levels_run_total_calls _ _ _ _ _ _ _ Hrun Ht).
  rewrite Hlen, length_map, length_seq, Zsum_powers by lia.
  split; [lia|]. f_equal. f_equal. f_equal. lia.
Qed.
(** ** Lists repeated *)

Lemma list_times_singleton {A} (x : A) (n : Z) :
  list_times [x] n = repeat x (Z.to_nat n).
Proof.
  unfold list_times. induction (Z.to_nat n) as [|m IH]; simpl; [reflexivity|now f_equal].
Qed.

(** ** The table *)

Lemma zip_rows_length c1 c2 c3 c4 :
  List.length c1 = List.length c2 -> List.length c3 = List.length c2 ->
  List.length c4 = List.length c2 ->
  List.length (zip_rows c1 c2 c3 c4) = List.length c2.
Proof.
  revert c1 c3 c4. induction c2 as [|b c2 IH]; intros [|a c1] [|c c3] [|d c4];
    simpl; intros H1 H2 H3; try discriminate; try reflexivity.
  f_equal. apply IH; lia.
Qed.

Lemma benchmark_table_ok (client_batch_size : Z) (request_counts : list Z)
    (latencies throughputs : list pyfloat) :
  List.length latencies = List.length request_counts ->
  List.length throughputs = List.length request_counts ->
  benchmark_table client_batch_size request_counts latencies throughputs
  = Ok (zip_rows (repeat client_batch_size (List.length request_counts))
                 request_counts latencies throughputs).
Proof.
  intros H1 H2. unfold benchmark_table, DataFrame.
  rewrite list_times_singleton, Nat2Z.id, repeat_length, Nat.eqb_refl.
  replace (Nat.eqb (List.length request_counts) (List.length latencies)) with true
    by (symmetry; apply Nat.eqb_eq; congruence).
  replace (Nat.eqb (List.length latencies) (List.length throughputs)) with true
    by (symmetry; apply Nat.eqb_eq; congruence).
  reflexivity.
Qed.

Lemma zip_rows_counts c1 c2 c3 c4 :
  List.length c1 = List.length c2 -> List.length c3 = List.length c2 ->
  List.length c4 = List.length c2 ->
  map row_concurrent_request_counts (zip_rows c1 c2 c3 c4) = c2.
Proof.
  revert c1 c3 c4. induction c2 as [|b c2 IH]; intros [|a c1] [|c c3] [|d c4];
    simpl; intros H1 H2 H3; try discriminate; try reflexivity.
  f_equal. apply IH; lia.
Qed.

(** ** The plots *)

Lemma skipn_nth_error_cons {A} (l : list A) (i : nat) (x : A) :
  nth_error l i = Some x -> skipn i l = x :: skipn (S i) l.
Proof.
  revert l. induction i as [|i IH]; intros [|y l] H; simpl in *; try discriminate.
  - now inversion H.
  - now apply IH.
Qed.

Lemma annotate_loop_spec (i : nat) (request_counts : list Z)
    (latencies throughputs : list pyfloat) :
  List.length throughputs = List.length latencies ->
  annotate_loop i request_counts latencies throughputs
  = (map (fun r => Annotate (fst r) (fst (snd r)) (snd (snd r)))
         (combine request_counts (combine (skipn i throughputs) (skipn i latencies))),
     if (List.length request_counts <=? List.length latencies - i)%nat
     then None else Some PlotIndexError).
Proof.
  intros Hlen. revert i. induction request_counts as [|c rc IH]; intros i.
  - reflexivity.
  - cbn [annotate_loop].
    destruct (nth_error throughputs i) as [x|] eqn:Ex.
    + assert (Hi : (i < List.length latencies)%nat).
      { rewrite <- Hlen. apply nth_error_Some. congruence. }
      destruct (nth_error latencies i) as [y|] eqn:Ey;
        [|apply nth_error_None in Ey; lia].
      rewrite IH, (skipn_nth_error_cons _ _ _ Ex), (skipn_nth_error_cons _ _ _ Ey).
      cbn [combine map fst snd List.length]. f_equal.
      destruct (Nat.leb_spec (List.length rc) (List.length latencies - S i));
        destruct (Nat.leb_spec (S (List.length rc)) (List.length latencies - i));
        try reflexivity; lia.
    + apply nth_error_None in Ex.
      rewrite (skipn_all2 throughputs) by lia. cbn [combine map List.length].
      replace (S (List.length rc) <=? List.length latencies - i)%nat with false
        by (symmetry; apply Nat.leb_gt; lia).
      reflexivity.
Qed.

Lemma annotations_app l1 l2 : annotations (l1 ++ l2) = annotations l1 ++ annotations l2.
Proof. apply flat_map_app. Qed.

Lemma annotations_of_annotate (l : list (Z * (pyfloat * pyfloat))) :
  annotations (map (fun r => Annotate (fst r) (fst (snd r)) (snd (snd r))) l)
  = map (fun r => (fst r, fst (snd r), snd (snd r))) l.
Proof. induction l as [|r l IH]; simpl; [reflexivity|now f_equal]. Qed.

Lemma no_show_in_annotate (l : list (Z * (pyfloat * pyfloat))) :
  ~ In ShowFigure (map (fun r => Annotate (fst r) (fst (snd r)) (snd (snd r))) l).
Proof. intros H. apply in_map_iff in H. destruct H as (r & H & _). discriminate. Qed.

Lemma plot_latency_vs_throughput_eq (latencies throughputs : list pyfloat)
    (request_counts : list Z) :
  List.length throughputs = List.length latencies ->
  plot_latency_vs_throughput latencies throughputs request_counts
  = ([Figure;
      PlotXY Pyplot (map NFloat throughputs) (map NFloat latencies);
      SetXLabel Pyplot "Throughput (requests/s)";
      SetYLabel Pyplot "Average Latency (s)";
      Title "Latency vs Throughput";
      Grid]
     ++ map (fun r => Annotate (fst r) (fst (snd r)) (snd (snd r)))
            (combine request_counts (combine throughputs latencies))
     ++ (if (List.length request_counts <=? List.length latencies)%nat
         then [ShowFigure] else []),
     if (List.length request_counts <=? List.length latencies)%nat
     then None else Some PlotIndexError).
Proof.
  intros Hlen. unfold plot_latency_vs_throughput.
  rewrite Hlen, Nat.eqb_refl. cbn [negb].
  rewrite (annotate_loop_spec 0 request_counts latencies throughputs Hlen).
  rewrite Nat.sub_0_r. cbn [skipn].
  destruct (List.length request_counts <=? List.length latencies)%nat;
    [reflexivity|now rewrite app_nil_r].
Qed.

(** X14.  [plot_latency_vs_throughput] on latencies and throughputs of
    one length annotates the points in order, each with its request
    count, as far as both lists go.  With no more request counts than
    points it completes and shows the figure; with more request counts
    than points it raises [IndexError] after annotating every point, and
    the figure is never shown.  On lists of different lengths it raises
    [ValueError] before drawing anything. *)
Theorem plot_latency_vs_throughput_annotations (latencies throughputs : list pyfloat)
    (request_counts : list Z) :
  (List.length throughputs = List.length latencies ->
   annotations (fst (plot_latency_vs_throughput latencies throughputs request_counts))
   = map (fun r => (fst r, fst (snd r), snd (snd r)))
         (combine request_counts (combine throughputs latencies)) /\
   ((List.length request_counts <= List.length latencies)%nat ->
    snd (plot_latency_vs_throughput latencies throughputs request_counts) = None /\
    In ShowFigure (fst (plot_latency_vs_throughput latencies throughputs request_counts))) /\
   ((List.length latencies < List.length request_counts)%nat ->
    snd (plot_latency_vs_throughput latencies throughputs request_counts)
    = Some PlotIndexError /\
    ~ In ShowFigure (fst (plot_latency_vs_throughput latencies throughputs request_counts)))) /\
  (List.length throughputs <> List.length latencies ->
   plot_latency_vs_throughput latencies throughputs request_counts
   = ([Figure], Some PlotValueError)).
Proof.
  split.
  - intros Hlen. rewrite (plot_latency_vs_throughput_eq _ _ _ Hlen). cbn [fst snd].
    split; [|split].
    + rewrite !annotations_app, annotations_of_annotate.
      destruct (List.length request_counts <=? List.length latencies)%nat;
        simpl; now rewrite app_nil_r.
    + intros Hle. apply Nat.leb_le in Hle. rewrite Hle. split; [reflexivity|].
      apply in_or_app. right. apply in_or_app. right. now left.
    + intros Hgt. apply Nat.leb_gt in Hgt. rewrite Hgt. split; [reflexivity|].
      rewrite app_nil_r. intros H. apply in_app_or in H. destruct H as [H|H].
      * simpl in H. intuition discriminate.
      * now apply no_show_in_annotate in H.
  - intros Hne. unfold plot_latency_vs_throughput.
    apply Nat.eqb_neq in Hne. now rewrite Hne.
Qed.

(** X15.  The three lists of a benchmark run that returns can be plotted
    and tabulated: [plot_metrics] and [plot_latency_vs_throughput]
    complete, every point of the second plot is annotated with its level,
    and the table has one row per level. *)
Theorem report_can_be_plotted_and_tabulated (env : Env) (payload : PyValue)
    (steps : list Z) (t : Z) (log : list event) (client_batch_size : Z)
    (request_counts : list Z) (latencies throughputs : list pyfloat) :
  benchmark_predictor env payload steps t
    = (log, Ok (request_counts, latencies, throughputs)) ->
  snd (plot_metrics request_counts latencies throughputs) = None /\
  snd (plot_latency_vs_throughput latencies throughputs request_counts) = None /\
  map fst (map fst
    (annotations (fst (plot_latency_vs_throughput latencies throughputs request_counts))))
  = steps /\
  exists rows,
    benchmark_table client_batch_size request_counts latencies throughputs = Ok rows /\
    List.length rows = List.length steps /\
    map row_concurrent_request_counts rows = steps.
Proof.
  intros H. apply benchmark_ok_inv in H. destruct H as (rows & Hrun & -> & -> & ->).
  pose proof (levels_run_length _ _ _ _ _ _ _ Hrun) as Hlen.
  assert (H1 : List.length (map fst rows) = List.length steps) by now rewrite length_map.
  assert (H2 : List.length (map snd rows) = List.length steps) by now rewrite length_map.
  rewrite (plot_latency_vs_throughput_eq (map fst rows) (map snd rows) steps)
    by congruence.
  replace (List.length steps <=? List.length (map fst rows))%nat with true
    by (symmetry; apply Nat.leb_le; lia).
  cbn [fst snd].
  split; [|split; [reflexivity|split]].
  - unfold plot_metrics. now rewrite H1, H2, Nat.eqb_refl.
  - rewrite !annotations_app, annotations_of_annotate. simpl. rewrite app_nil_r, !map_map.
    cbn [fst].
    clear - H1 H2. revert rows H1 H2. induction steps as [|c steps IH]; intros rows H1 H2.
    + reflexivity.
    + destruct rows as [|r rows]; [discriminate|]. simpl. f_equal.
      apply IH; simpl in *; lia.
  - rewrite (benchmark_table_ok client_batch_size steps _ _ H1 H2).
    eexists. split; [reflexivity|]. split.
    + apply zip_rows_length; [apply repeat_length|assumption|assumption].
    + apply zip_rows_counts; [apply repeat_length|assumption|assumption].
Qed.
(** ** The inference script *)

Lemma dict_get_remove_same (key : string) (d : list (string * PyValue)) :
  dict_get key (dict_remove key d) = None.
Proof.
  unfold dict_remove. induction d as [|[k v] d IH]; simpl; [reflexivity|].
  destruct (String.eqb k key) eqn:E; simpl; [exact IH|]. now rewrite E.
Qed.

Lemma dict_get_remove_other (key key' : string) (d : list (string * PyValue)) :
  key' <> key -> dict_get key' (dict_remove key d) = dict_get key' d.
Proof.
  intros Hne. unfold dict_remove. induction d as [|[k v] d IH]; simpl; [reflexivity|].
  destruct (String.eqb k key) eqn:E; simpl.
  - apply String.eqb_eq in E. subst k.
    replace (String.eqb key key') with false
      by (symmetry; apply String.eqb_neq; congruence).
    exact IH.
  - destruct (String.eqb k key'); [reflexivity|exact IH].
Qed.

Lemma dict_remove_absent (key : string) (d : list (string * PyValue)) :
  dict_get key d = None -> dict_remove key d = d.
Proof.
  unfold dict_remove. induction d as [|[k v] d IH]; simpl; [reflexivity|].
  destruct (String.eqb k key) eqn:E; [discriminate|]. simpl. intros H. f_equal. auto.
Qed.

(** X16.  [predict_fn] takes "inputs" out of [data].  When [data] has
    the key, its value is what is printed and tokenized, and afterwards
    [data] has no "inputs" while every other key reads as before.  When
    [data] lacks the key, the whole dict is printed and tokenized and
    [data] is left as it was. *)
Theorem predict_fn_takes_inputs_out {Encoded : Type} (data : list (string * PyValue))
    (p : pipeline Encoded) :
  (forall v, dict_get "inputs" data = Some v ->
     printed (predict_fn data p) = v /\
     scores (predict_fn data p)
     = option_map (fun enc => map sigmoid (logits p enc))
                  (tokenizer p v (static_sequence_length p)) /\
     dict_get "inputs" (data_after (predict_fn data p)) = None /\
     forall key : string, key <> "inputs"%string ->
       dict_get key (data_after (predict_fn data p)) = dict_get key data) /\
  (dict_get "inputs" data = None ->
     printed (predict_fn data p) = PyDict data /\
     scores (predict_fn data p)
     = option_map (fun enc => map sigmoid (logits p enc))
                  (tokenizer p (PyDict data) (static_sequence_length p)) /\
     data_after (predict_fn data p) = data).
Proof.
  split.
  - intros v H. unfold predict_fn, dict_pop. rewrite H. cbn [printed scores data_after].
    split; [reflexivity|]. split.
    + now destruct (tokenizer p v (static_sequence_length p)).
    + split; [apply dict_get_remove_same|].
      intros key Hk. now apply dict_get_remove_other.
  - intros H. unfold predict_fn, dict_pop. rewrite H. cbn [printed scores data_after].
    split; [reflexivity|]. split; [|reflexivity].
    now destruct (tokenizer p (PyDict data) (static_sequence_length p)).
Qed.

(** ** Names *)

Lemma replace_char_length (old new : ascii) (s : string) :
  String.length (replace_char old new s) = String.length s.
Proof. induction s as [|ch s IH]; simpl; [reflexivity|now f_equal]. Qed.

(** X19.  The base of the model name has the length of the Hugging Face
    model id and no slash in it; an id without a slash is its own base. *)
Theorem model_name_base_has_no_slash (hf_model_id : string) :
  String.length (model_name_base hf_model_id) = String.length hf_model_id /\
  occurs "/"%char (model_name_base hf_model_id) = false /\
  (occurs "/"%char hf_model_id = false -> model_name_base hf_model_id = hf_model_id).
Proof.
  unfold model_name_base. split; [apply replace_char_length|]. split.
  - induction hf_model_id as [|ch s IH]; simpl; [reflexivity|].
    rewrite IH, orb_false_r.
    destruct (Ascii.eqb ch "/"%char) eqn:E; [reflexivity|exact E].
  - induction hf_model_id as [|ch s IH]; simpl; [reflexivity|].
    intros H. apply orb_false_iff in H. destruct H as (H1 & H2).
    rewrite H1. f_equal. auto.
Qed.
(** ** The further properties at work on concrete inputs *)

Lemma printed_lines_are_the_report_witness :
  stub_run
  = (log_of stub_run,
     Ok ([1; 2; 4],
         [Fin (20 # 200); Fin (8000 # 80000); Fin (320000000 # 3200000000)],
         [Fin (20 # 2); Fin (40 # 2); Fin (80 # 2)])) /\
  List.length (printed_lines (log_of stub_run)) = List.length [1; 2; 4].
Proof.
  assert (E : stub_run
    = (log_of stub_run,
       Ok ([1; 2; 4],
           [Fin (20 # 200); Fin (8000 # 80000); Fin (320000000 # 3200000000)],
           [Fin (20 # 2); Fin (40 # 2); Fin (80 # 2)]))) by reflexivity.
  split; [exact E|].
  exact (proj2 (printed_lines_are_the_report _ _ _ _ _ _ _ _ E)).
Defined.

Lemma zero_elapsed_time_stops_run_witness :
  stalled_run = (log_of stalled_run, Raise ZeroDivisionError) /\
  clean (log_of stalled_run).
Proof.
  assert (E : stalled_run = (log_of stalled_run, Raise ZeroDivisionError)) by reflexivity.
  split; [exact E|].
  exact (proj1 (zero_elapsed_time_stops_run _ _ _ _ _ E)).
Defined.

Lemma pool_rejection_means_nonpositive_level_witness :
  rejected_run = (log_of rejected_run, Raise ValueError) /\
  clean (log_of rejected_run).
Proof.
  assert (E : rejected_run = (log_of rejected_run, Raise ValueError)) by reflexivity.
  split; [exact E|].
  exact (proj1 (proj2 (pool_rejection_means_nonpositive_level _ _ _ _ _ E))).
Defined.

Lemma total_calls_of_a_run_witness :
  stub_run = (log_of stub_run, outcome_of stub_run) /\
  0 <= 2 /\
  Z.of_nat (List.length (predict_calls (log_of stub_run))) = 2 * Zsum [1; 2; 4].
Proof.
  assert (E : stub_run
    = (log_of stub_run,
       Ok ([1; 2; 4],
           [Fin (20 # 200); Fin (8000 # 80000); Fin (320000000 # 3200000000)],
           [Fin (20 # 2); Fin (40 # 2); Fin (80 # 2)]))) by reflexivity.
  assert (Ht : 0 <= 2) by lia.
  split; [reflexivity|]. split; [exact Ht|].
  exact (proj1 (total_calls_of_a_run _ _ _ _ _ _ E Ht)).
Defined.

Lemma trial_latency_times_throughput_bounded_witness :
  run_trial example_payload 0 0 3 uneven_trial
  = (trial_calls example_payload 0 0 3 uneven_trial, Ok (Fin (6 # 3), Fin (3 # 4))) /\
  clock_is_sane 3 uneven_trial /\
  exists m x,
    Fin (6 # 3) = Fin m /\ Fin (3 # 4) = Fin x /\
    (0 <= m)%Q /\ (m <= trial_elapsed uneven_trial)%Q /\ (0 < x)%Q /\
    (m * x <= inject_Z 3)%Q.
Proof.
  assert (E : run_trial example_payload 0 0 3 uneven_trial
    = (trial_calls example_payload 0 0 3 uneven_trial, Ok (Fin (6 # 3), Fin (3 # 4))))
    by reflexivity.
  assert (S : clock_is_sane 3 uneven_trial).
  { intros i Hi. assert (Hc : (i = 0 \/ i = 1 \/ i = 2)%nat) by lia.
    destruct Hc as [->|[->| ->]]; (split; [|split]); unfold Qle; simpl; lia. }
  split; [exact E|]. split; [exact S|].
  exact (trial_latency_times_throughput_bounded _ _ _ _ _ _ _ _ E S).
Defined.

Lemma reported_level_is_bounded_witness :
  1 <= 2 /\
  nth_error [1; 2; 4] 2 = Some 4 /\
  exists a b,
    nth_error [Fin (20 # 200); Fin (8000 # 80000); Fin (320000000 # 3200000000)] 2
      = Some (Fin a) /\
    nth_error [Fin (20 # 2); Fin (40 # 2); Fin (80 # 2)] 2 = Some (Fin b) /\
    (0 <= a)%Q /\ (a <= 1 # 10)%Q /\ (inject_Z 4 / (1 # 10) <= b)%Q /\ (0 < b)%Q.
Proof.
  assert (E : stub_run
    = (log_of stub_run,
       Ok ([1; 2; 4],
           [Fin (20 # 200); Fin (8000 # 80000); Fin (320000000 # 3200000000)],
           [Fin (20 # 2); Fin (40 # 2); Fin (80 # 2)]))) by reflexivity.
  assert (Ht : 1 <= 2) by lia.
  assert (Hk : nth_error [1; 2; 4] 2 = Some 4) by reflexivity.
  assert (S : forall j, (j < Z.to_nat 2)%nat -> clock_is_sane 4 (stub_env (1 # 10) 2%nat j)).
  { intros j _ i _. (split; [|split]); unfold Qle; simpl; lia. }
  assert (B : forall j, (j < Z.to_nat 2)%nat ->
                (trial_elapsed (stub_env (1 # 10) 2%nat j) <= 1 # 10)%Q).
  { intros j _. unfold Qle. simpl. lia. }
  split; [exact Ht|]. split; [exact Hk|].
  exact (reported_level_is_bounded _ _ _ _ _ _ _ _ _ _ _ E Ht Hk S B).
Defined.

Lemma run_over_concatenated_steps_witness :
  benchmark_predictor (stub_env (1 # 10)) example_payload [1; 2] 2
  = (log_of (benchmark_predictor (stub_env (1 # 10)) example_payload [1; 2] 2),
     Ok ([1; 2], [Fin (20 # 200); Fin (8000 # 80000)], [Fin (20 # 2); Fin (40 # 2)])) /\
  outcome_of (benchmark_predictor (stub_env (1 # 10)) example_payload ([1; 2] ++ [4]) 2)
  = prepend_report ([1; 2], [Fin (20 # 200); Fin (8000 # 80000)], [Fin (20 # 2); Fin (40 # 2)])
      (outcome_of (benchmark_predictor (shift_env (List.length [1; 2]) (stub_env (1 # 10)))
                     example_payload [4] 2)).
Proof.
  assert (E : benchmark_predictor (stub_env (1 # 10)) example_payload [1; 2] 2
    = (log_of (benchmark_predictor (stub_env (1 # 10)) example_payload [1; 2] 2),
       Ok ([1; 2], [Fin (20 # 200); Fin (8000 # 80000)], [Fin (20 # 2); Fin (40 # 2)])))
    by reflexivity.
  split; [exact E|].
  exact (run_over_concatenated_steps _ _ _ [4] _ _ _ E).
Defined.

Lemma aborted_run_ignores_later_steps_witness :
  benchmark_predictor failing_env example_payload [1; 4] 2
  = (log_of (benchmark_predictor failing_env example_payload [1; 4] 2),
     Raise (PredictError 429)) /\
  benchmark_predictor failing_env example_payload ([1; 4] ++ [2]) 2
  = (log_of (benchmark_predictor failing_env example_payload [1; 4] 2),
     Raise (PredictError 429)).
Proof.
  assert (E : benchmark_predictor failing_env example_payload [1; 4] 2
    = (log_of (benchmark_predictor failing_env example_payload [1; 4] 2),
       Raise (PredictError 429))) by reflexivity.
  split; [exact E|].
  exact (aborted_run_ignores_later_steps _ _ _ [2] _ _ _ E).
Defined.

Lemma well_behaved_run_returns_witness :
  Forall (fun c => 0 < c) [1; 2; 4] /\
  exists log latencies throughputs,
    benchmark_predictor (stub_env (1 # 10)) example_payload [1; 2; 4] 2
    = (log, Ok ([1; 2; 4], latencies, throughputs)).
Proof.
  assert (F : Forall (fun c => 0 < c) [1; 2; 4]).
  { constructor; [lia|]. constructor; [lia|]. constructor; [lia|]. constructor. }
  assert (A : forall k j i, answer (served (stub_env (1 # 10) k j) i) = Responds).
  { intros k j i. reflexivity. }
  assert (N : forall k j, ~ (trial_elapsed (stub_env (1 # 10) k j) == 0)%Q).
  { intros k j H. discriminate H. }
  split; [exact F|].
  exact (well_behaved_run_returns (stub_env (1 # 10)) example_payload [1; 2; 4] 2 F A N).
Defined.

Lemma benchmark_steps_are_increasing_powers_witness :
  0 <= 0 /\ 0 < 1 /\
  exists steps,
    benchmark_steps 0 9 1 = Ok (map NInt steps) /\
    steps = map (fun i => 2 ^ (0 + Z.of_nat i * 1)) (seq 0 (Z.to_nat (range_len 0 9 1))) /\
    Forall (fun c => 1 <= c /\ c < 2 ^ 9) steps /\
    StronglySorted Z.lt steps.
Proof.
  assert (H0 : 0 <= 0) by lia.
  assert (H1 : 0 < 1) by lia.
  split; [exact H0|]. split; [exact H1|].
  exact (benchmark_steps_are_increasing_powers 0 9 1 H0 H1).
Defined.

Lemma calls_of_the_benchmark_cell_witness :
  0 <= 0 /\ 0 <= 3 /\ 0 <= 2 /\
  benchmark_steps 0 3 1 = Ok (map NInt [1; 2; 4]) /\
  Z.of_nat (List.length (predict_calls (log_of stub_run))) = 2 * (2 ^ 3 - 2 ^ 0).
Proof.
  assert (H0 : 0 <= 0) by lia.
  assert (H3 : 0 <= 3) by lia.
  assert (H2 : 0 <= 2) by lia.
  assert (S : benchmark_steps 0 3 1 = Ok (map NInt [1; 2; 4])) by reflexivity.
  assert (E : stub_run
    = (log_of stub_run,
       Ok ([1; 2; 4],
           [Fin (20 # 200); Fin (8000 # 80000); Fin (320000000 # 3200000000)],
           [Fin (20 # 2); Fin (40 # 2); Fin (80 # 2)]))) by reflexivity.
  split; [exact H0|]. split; [exact H3|]. split; [exact H2|]. split; [exact S|].
  exact (proj2 (calls_of_the_benchmark_cell _ _ 0 3 2 _ _ _ H0 H3 H2 S E)).
Defined.

Lemma plot_latency_vs_throughput_annotations_witness :
  List.length [Fin 3; Fin 4] = List.length [Fin 1; Fin 2] /\
  (List.length [Fin 1; Fin 2] < List.length [1; 2; 4])%nat /\
  snd (plot_latency_vs_throughput [Fin 1; Fin 2] [Fin 3; Fin 4] [1; 2; 4])
  = Some PlotIndexError.
Proof.
  assert (H1 : List.length [Fin 3; Fin 4] = List.length [Fin 1; Fin 2]) by reflexivity.
  assert (H2 : (List.length [Fin 1; Fin 2] < List.length [1; 2; 4])%nat) by (simpl; lia).
  split; [exact H1|]. split; [exact H2|].
  exact (proj1 (proj2 (proj2 (proj1
    (plot_latency_vs_throughput_annotations [Fin 1; Fin 2] [Fin 3; Fin 4] [1; 2; 4]) H1))
    H2)).
Defined.

Lemma report_can_be_plotted_and_tabulated_witness :
  stub_run = (log_of stub_run, outcome_of stub_run) /\
  snd (plot_metrics [1; 2; 4]
         [Fin (20 # 200); Fin (8000 # 80000); Fin (320000000 # 3200000000)]
         [Fin (20 # 2); Fin (40 # 2); Fin (80 # 2)]) = None.
Proof.
  assert (E : stub_run
    = (log_of stub_run,
       Ok ([1; 2; 4],
           [Fin (20 # 200); Fin (8000 # 80000); Fin (320000000 # 3200000000)],
           [Fin (20 # 2); Fin (40 # 2); Fin (80 # 2)]))) by reflexivity.
  split; [reflexivity|].
  exact (proj1 (report_can_be_plotted_and_tabulated _ _ _ _ _ 32 _ _ _ E)).
Defined.

Lemma predict_fn_takes_inputs_out_witness :
  dict_get "inputs" example_data
  = Some (PyList [PyList [PyStr "what is panda?"; PyStr "hi"]]) /\
  dict_get "inputs" (data_after (predict_fn example_data example_pipeline)) = None.
Proof.
  assert (H : dict_get "inputs" example_data
              = Some (PyList [PyList [PyStr "what is panda?"; PyStr "hi"]]))
    by reflexivity.
  split; [exact H|].
  exact (proj1 (proj2 (proj2
    (proj1 (predict_fn_takes_inputs_out example_data example_pipeline) _ H)))).
Defined.

Lemma model_name_base_has_no_slash_witness :
  occurs "/"%char "bge-reranker-v2-m3" = false /\
  model_name_base "bge-reranker-v2-m3" = "bge-reranker-v2-m3"%string.
Proof.
  assert (H : occurs "/"%char "bge-reranker-v2-m3" = false) by reflexivity.
  split; [exact H|].
  exact (proj2 (proj2 (model_name_base_has_no_slash "bge-reranker-v2-m3")) H).
Defined.

